(** * KTU-GG-Alert-v2: the reminder bot of [main.py]

    A shallow embedding of the calendar reminder bot: the polling pass
    [notify_schedules] with its three de-duplication ledgers, the mute flag
    ([is_muted], [set_mute_on_body]), the broadcast command [notice], and the
    confirmation protocol of the bulk deletes ([delall_confirm_prompt],
    [delhistory_confirm_prompt], [confirm_timeout], [ok_handler]).

    Conventions of the embedding.
    - A Python [str] is the list of its code points ([pystr]).
    - A [datetime] is the record of its civil fields, as CPython stores it;
      every datetime of the program is in the zone KST, so the UTC offsets of
      the two operands of a subtraction or comparison cancel.
    - A [timedelta] is its total number of microseconds.
    - Sets ([user_ids], the three ledgers) are [gset]s, [bot_data] entries
      keyed by a chat id are [gmap]s over the chat id.
    - A handler is a function from the state to the new state and the list of
      the effects it performed on the collaborators (Telegram, the calendar),
      in order.  What the collaborators answer is read from an [env]. *)

From Stdlib Require Import ZArith NArith Ascii String List Lia.
From stdpp Require Import base tactics option list sorting gmap.

Local Open Scope Z_scope.

(* ===================================================================== *)
(** ** Python strings *)
(* ===================================================================== *)

Abbreviation pystr := (list N).

(** The code points of an ASCII literal. *)
Definition lit (s : string) : pystr := N_of_ascii <$> list_ascii_of_string s.
Arguments lit s%_string.

(** [str.isspace] on one code point: the characters [str.strip] removes. *)
Definition py_isspace (c : N) : bool :=
  ((9 <=? c) && (c <=? 13) || (28 <=? c) && (c <=? 32)
   || (c =? 133) || (c =? 160) || (c =? 5760)
   || (8192 <=? c) && (c <=? 8202)
   || (c =? 8232) || (c =? 8233) || (c =? 8239) || (c =? 8287)
   || (c =? 12288))%N.

Fixpoint py_lstrip (s : pystr) : pystr :=
  match s with
  | c :: s' => if py_isspace c then py_lstrip s' else s
  | [] => []
  end.

Definition py_rstrip (s : pystr) : pystr := rev (py_lstrip (rev s)).

Definition py_strip (s : pystr) : pystr := py_rstrip (py_lstrip s).

(** [str.lower] on one code point.  The ASCII and Latin-1 capitals are
    mapped, U+0130 and U+212A (the two code points above U+00FF whose
    lowercase contains an ASCII letter) too; every other code point is kept,
    so on text with other cased letters this differs from Python, but never
    in a way that produces or removes an ASCII character. *)
Definition py_lower_cp (c : N) : pystr :=
  (if (65 <=? c) && (c <=? 90) then [c + 32]
   else if (192 <=? c) && (c <=? 222) && negb (c =? 215) then [c + 32]
   else if c =? 304 then [105; 775]
   else if c =? 8490 then [107]
   else [c])%N.

Definition py_lower (s : pystr) : pystr := s ≫= py_lower_cp.

(** [s[n:]] *)
Definition py_slice_from (n : nat) (s : pystr) : pystr := drop n s.

(* ===================================================================== *)
(** ** datetime and timedelta *)
(* ===================================================================== *)

Record datetime := mk_datetime {
  year : Z; month : Z; day : Z;
  hour : Z; minute : Z; second : Z; microsecond : Z
}.

#[export] Instance datetime_eq_dec : EqDecision datetime.
Proof. solve_decision. Defined.

(** CPython's [_is_leap], [_days_before_year], [_days_before_month] and
    [_ymd2ord]: the proleptic Gregorian ordinal of a date. *)
Definition is_leap (y : Z) : bool :=
  (y mod 4 =? 0) && (negb (y mod 100 =? 0) || (y mod 400 =? 0)).

Definition days_before_year (y : Z) : Z :=
  let y1 := y - 1 in y1 * 365 + y1 / 4 - y1 / 100 + y1 / 400.

Definition days_before_month (y m : Z) : Z :=
  nth (Z.to_nat m) [0; 0; 31; 59; 90; 120; 151; 181; 212; 243; 273; 304; 334] 0
  + (if (2 <? m) && is_leap y then 1 else 0).

Definition ymd2ord (y m d : Z) : Z :=
  days_before_year y + days_before_month y m + d.

Definition toordinal (dt : datetime) : Z := ymd2ord (year dt) (month dt) (day dt).

(** A timedelta, in microseconds. *)
Definition timedelta (days hours minutes : Z) : Z :=
  ((days * 24 + hours) * 60 + minutes) * 60 * 1000000.

(** The instant of a datetime, in microseconds since ordinal day 0 at
    midnight, local time. *)
Definition to_micros (dt : datetime) : Z :=
  ((toordinal dt * 24 + hour dt) * 60 + minute dt) * 60 * 1000000
  + second dt * 1000000 + microsecond dt.

(** [a - b] on two datetimes of the same zone. *)
Definition dt_sub (a b : datetime) : Z := to_micros a - to_micros b.

(** [a < b] on two datetimes of the same zone. *)
Definition dt_ltb (a b : datetime) : bool := to_micros a <? to_micros b.

(** Two decimal digits, as [%m], [%d], [%H], [%M] and [%y] print them. *)
Definition pad2 (n : Z) : pystr :=
  [Z.to_N (48 + n / 10 mod 10); Z.to_N (48 + n mod 10)].

(** [dt.strftime('%y%m%d %H%M')] *)
Definition strftime_yymmdd_HHMM (dt : datetime) : pystr :=
  pad2 (year dt mod 100) ++ pad2 (month dt) ++ pad2 (day dt) ++ lit " "
  ++ pad2 (hour dt) ++ pad2 (minute dt).

(* ===================================================================== *)
(** ** Calendar events *)
(* ===================================================================== *)

(** [ev["extendedProperties"]]: the two property maps of an event; a key
    that is absent or [null] is [None]. *)
Record extended_properties := mk_extended_properties {
  ep_private : option (gmap pystr pystr);
  ep_shared : option (gmap pystr pystr)
}.

(** [ev["start"]] and [ev["end"]]: a timed event carries [dateTime] (here
    already read by [datetime.fromisoformat] and moved to KST), an all-day
    event carries [date]; neither key may be there. *)
Inductive event_time :=
  | DateTime (dt : datetime)
  | Date (y m d : Z)
  | NoTime.

Record event := mk_event {
  ev_id : pystr;
  ev_summary : option pystr;
  ev_start : event_time;
  ev_end : event_time;
  ev_extendedProperties : option extended_properties
}.

(** The body of a [patch] request: the keys the request carries. *)
Record body := mk_body {
  b_summary : option pystr;
  b_start : option event_time;
  b_end : option event_time;
  b_extendedProperties : option extended_properties
}.

(** [(ev.get("extendedProperties") or {}).get("private") or {}] *)
Definition private_of (ev : event) : gmap pystr pystr :=
  default ∅ (ev_extendedProperties ev ≫= ep_private).

Definition mute_values : list pystr :=
  [lit "v"; lit "true"; lit "1"; [10003%N]; [10004%N]].

Definition is_muted (ev : event) : bool :=
  let priv := private_of ev in
  let val := py_lower (py_strip (default [] (priv !! lit "mute"))) in
  bool_decide (val ∈ mute_values).

Definition set_mute_on_body (existing_ev : event) (mute : bool) : body :=
  let priv := private_of existing_ev in
  let priv := <[lit "mute" := if mute then lit "v" else []]> priv in
  {| b_summary := None; b_start := None; b_end := None;
     b_extendedProperties :=
       Some {| ep_private := Some priv; ep_shared := None |} |}.

Definition get_event_start_dt (ev : event) : option datetime :=
  match ev_start ev with
  | DateTime dt => Some dt
  | Date y m d => Some (mk_datetime y m d 0 0 0 0)
  | NoTime => None
  end.

(** One entry of [_sorted_upcoming_items()]. *)
Record item := mk_item {
  it_id : pystr;
  it_dt : datetime;
  it_summary : pystr;
  it_mute : bool
}.

(** [items.sort(key=lambda x: x["dt"])]: a stable sort, written as the
    insertion of each entry behind the entries that are not later. *)
Fixpoint insert_by_dt (x : item) (l : list item) : list item :=
  match l with
  | [] => [x]
  | y :: l' =>
      if dt_ltb (it_dt x) (it_dt y) then x :: l else y :: insert_by_dt x l'
  end.

Definition sort_by_dt (l : list item) : list item :=
  foldl (fun acc x => insert_by_dt x acc) [] l.

Definition item_of_event (ev : event) : option item :=
  match get_event_start_dt ev with
  | None => None
  | Some dt =>
      Some {| it_id := ev_id ev; it_dt := dt;
              it_summary := py_strip (default [] (ev_summary ev));
              it_mute := is_muted ev |}
  end.

Definition items_of_events (events : list event) : list item :=
  sort_by_dt (omap item_of_event events).

(* ===================================================================== *)
(** ** The collaborators *)
(* ===================================================================== *)

Inductive threshold := THREE_HOUR | ONE_DAY | ONE_WEEK.

#[export] Instance threshold_eq_dec : EqDecision threshold.
Proof. solve_decision. Defined.

(** The texts the bot sends, by the values that fill their templates. *)
Inductive message :=
  | Reminder (th : threshold) (description : pystr) (event_time now : datetime)
  | NoticeText (notice_message : pystr)
  | TimeoutText.

(** What [bot.send_message] does: it returns, or it raises. *)
Inductive send_result := Delivered | PermanentFailure | TransientFailure.

(** What [delete_event] does: it returns, raises [HttpError], or raises
    another exception. *)
Inductive delete_result := Deleted | DeleteHttpError | DeleteOtherError.

#[export] Instance send_result_eq_dec : EqDecision send_result.
Proof. solve_decision. Defined.

Definition raises (r : send_result) : bool :=
  match r with Delivered => false | _ => true end.

(** The answers of the calendar and of Telegram during one handler run.
    A listing or a [get] that raises is [None]; a [patch] that raises is
    [false]. *)
Record env := mk_env {
  list_upcoming : option (list event);
  list_past : Z -> option (list event);
  events_get : pystr -> option event;
  events_patch : pystr -> body -> bool;
  delete_event : pystr -> delete_result;
  send_message : Z -> message -> send_result
}.

Definition _sorted_upcoming_items (e : env) : option (list item) :=
  items_of_events <$> list_upcoming e.

(** The replies to a command ([update.message.reply_text]). *)
Inductive reply :=
  | Welcome
  | NeedAdmin
  | NoticeUsage
  | NoRecipients
  | NoticePartial (failed sent : nat)
  | NoticeAll (sent : nat)
  | ConfirmBusy
  | DelallPrompt
  | DelhistoryPrompt
  | DeletedUpcoming (count : Z)
  | DeletedPast (count : Z)
  | NothingToConfirm
  | MuteDone (mute : bool) (summary : pystr)
  | BadIndex
  | MuteError (mute : bool).

Inductive effect :=
  | SendMessage (chat_id : Z) (m : message) (r : send_result)
  | ReplyText (chat_id : Z) (r : reply)
  | DeleteEvent (event_id : pystr) (r : delete_result)
  | PatchEvent (event_id : pystr) (b : body) (ok : bool).

(* ===================================================================== *)
(** ** The state of the process *)
(* ===================================================================== *)

Inductive action := delall | delhistory.

#[export] Instance action_eq_dec : EqDecision action.
Proof. solve_decision. Defined.

(** An asyncio task running [confirm_timeout]: asleep for a chat, cancelled
    by [task.cancel()], or run to its end. *)
Inductive task_state := Sleeping (chat_id : Z) | Cancelled | Finished.

Record admin := mk_admin { name : pystr; chat_id : Z }.

Record state := mk_state {
  user_ids : gset Z;                      (* bot_data["user_ids"] *)
  user_ids_file : gset Z;                 (* user_ids.json *)
  admins : list admin;                    (* admins.json *)
  notified_schedules_hour : gset pystr;
  notified_schedules_day : gset pystr;
  notified_schedules_week : gset pystr;
  confirm_action : gmap Z action;         (* bot_data["confirm_action_<chat>"] *)
  confirm_task : gmap Z nat;              (* bot_data["confirm_task_<chat>"] *)
  tasks : list task_state                 (* the tasks made by create_task *)
}.

Definition is_admin (st : state) (chat : Z) : bool :=
  existsb (fun a => chat_id a =? chat) (admins st).

(** Field updates. *)
Definition set_user_ids (u f : gset Z) (st : state) : state :=
  {| user_ids := u; user_ids_file := f; admins := admins st;
     notified_schedules_hour := notified_schedules_hour st;
     notified_schedules_day := notified_schedules_day st;
     notified_schedules_week := notified_schedules_week st;
     confirm_action := confirm_action st; confirm_task := confirm_task st;
     tasks := tasks st |}.

Definition set_confirm (a : gmap Z action) (t : gmap Z nat)
    (ts : list task_state) (st : state) : state :=
  {| user_ids := user_ids st; user_ids_file := user_ids_file st;
     admins := admins st;
     notified_schedules_hour := notified_schedules_hour st;
     notified_schedules_day := notified_schedules_day st;
     notified_schedules_week := notified_schedules_week st;
     confirm_action := a; confirm_task := t; tasks := ts |}.

(** The ledger of a threshold, and [ledger.add(uid)]. *)
Definition ledger (th : threshold) (st : state) : gset pystr :=
  match th with
  | THREE_HOUR => notified_schedules_hour st
  | ONE_DAY => notified_schedules_day st
  | ONE_WEEK => notified_schedules_week st
  end.

Definition ledger_add (th : threshold) (uid : pystr) (st : state) : state :=
  {| user_ids := user_ids st; user_ids_file := user_ids_file st;
     admins := admins st;
     notified_schedules_hour :=
       match th with
       | THREE_HOUR => {[uid]} ∪ notified_schedules_hour st
       | _ => notified_schedules_hour st
       end;
     notified_schedules_day :=
       match th with
       | ONE_DAY => {[uid]} ∪ notified_schedules_day st
       | _ => notified_schedules_day st
       end;
     notified_schedules_week :=
       match th with
       | ONE_WEEK => {[uid]} ∪ notified_schedules_week st
       | _ => notified_schedules_week st
       end;
     confirm_action := confirm_action st; confirm_task := confirm_task st;
     tasks := tasks st |}.

(* ===================================================================== *)
(** ** The polling pass: [notify_schedules] *)
(* ===================================================================== *)

(** The window of each threshold, [lo < diff <= hi]:
    [timedelta(minutes=179) < diff <= timedelta(minutes=180)],
    [timedelta(hours=23) < diff <= timedelta(days=1)],
    [timedelta(days=6) < diff <= timedelta(days=7)]. *)
Definition window_lo (th : threshold) : Z :=
  match th with
  | THREE_HOUR => timedelta 0 0 179
  | ONE_DAY => timedelta 0 23 0
  | ONE_WEEK => timedelta 6 0 0
  end.

Definition window_hi (th : threshold) : Z :=
  match th with
  | THREE_HOUR => timedelta 0 0 180
  | ONE_DAY => timedelta 1 0 0
  | ONE_WEEK => timedelta 7 0 0
  end.

Definition in_window (th : threshold) (diff : Z) : bool :=
  (window_lo th <? diff) && (diff <=? window_hi th).

Definition suffix (th : threshold) : pystr :=
  match th with
  | THREE_HOUR => lit "_hour"
  | ONE_DAY => lit "_day"
  | ONE_WEEK => lit "_week"
  end.

(** [uid_hour], [uid_day], [uid_week]:
    [f"{event_time.strftime('%y%m%d %H%M')}_{description}_hour"] and so on. *)
Definition uid (th : threshold) (event_time : datetime) (description : pystr)
    : pystr :=
  strftime_yymmdd_HHMM event_time ++ lit "_" ++ description ++ suffix th.

(** [for chat_id in user_ids: try: send_message(...) except Exception: print] *)
Definition fan_out (e : env) (chats : list Z) (m : message) : list effect :=
  (fun c => SendMessage c m (send_message e c m)) <$> chats.

(** One of the three [if] blocks of the loop body. *)
Definition notify_threshold (e : env) (now : datetime) (s : item)
    (th : threshold) (st : state) : state * list effect :=
  let event_time := it_dt s in
  let description := it_summary s in
  let diff := dt_sub event_time now in
  if in_window th diff then
    if bool_decide (uid th event_time description ∈ ledger th st) then (st, [])
    else
      (ledger_add th (uid th event_time description) st,
       fan_out e (elements (user_ids st))
         (Reminder th description event_time now))
  else (st, []).

(** The body of [for s in items]. *)
Definition notify_item (e : env) (now : datetime) (s : item) (st : state)
    : state * list effect :=
  if it_mute s then (st, [])
  else
    let '(st1, o1) := notify_threshold e now s THREE_HOUR st in
    let '(st2, o2) := notify_threshold e now s ONE_DAY st1 in
    let '(st3, o3) := notify_threshold e now s ONE_WEEK st2 in
    (st3, o1 ++ o2 ++ o3).

Fixpoint notify_items (e : env) (now : datetime) (items : list item)
    (st : state) : state * list effect :=
  match items with
  | [] => (st, [])
  | s :: items' =>
      let '(st1, o1) := notify_item e now s st in
      let '(st2, o2) := notify_items e now items' st1 in
      (st2, o1 ++ o2)
  end.

(** One iteration of [while True] in [notify_schedules], up to its sleep.
    An exception of the listing is caught by the [except] of the loop. *)
Definition notify_schedules (e : env) (now : datetime) (st : state)
    : state * list effect :=
  if bool_decide (user_ids st = ∅) then (st, [])
  else
    match _sorted_upcoming_items e with
    | None => (st, [])
    | Some items => notify_items e now items st
    end.

(* ===================================================================== *)
(** ** Commands *)
(* ===================================================================== *)

(** [start] *)
Definition start (chat : Z) (st : state) : state * list effect :=
  let st' :=
    if bool_decide (chat ∈ user_ids st) then st
    else set_user_ids ({[chat]} ∪ user_ids st) ({[chat]} ∪ user_ids st) st in
  (st', [ReplyText chat Welcome]).

(** The loop of [notice] over the snapshot [list(user_ids)]; [uids] is the
    live set, [file] the content of user_ids.json, [failed] the list of the
    chats whose send raised. *)
Fixpoint notice_loop (e : env) (m : message) (chats : list Z)
    (uids file : gset Z) (failed : list Z)
    : gset Z * gset Z * list Z * list effect :=
  match chats with
  | [] => (uids, file, failed, [])
  | c :: chats' =>
      let r := send_message e c m in
      let '(uids1, file1, failed1) :=
        if raises r then (uids ∖ {[c]}, uids ∖ {[c]}, failed ++ [c])
        else (uids, file, failed) in
      let '(uids2, file2, failed2, o) :=
        notice_loop e m chats' uids1 file1 failed1 in
      (uids2, file2, failed2, SendMessage c m r :: o)
  end.

(** [notice], under [@admin_only] *)
Definition notice (e : env) (chat : Z) (message_text : pystr) (st : state)
    : state * list effect :=
  if negb (is_admin st chat) then (st, [ReplyText chat NeedAdmin])
  else if bool_decide (py_strip message_text = [])
          || bool_decide (py_strip message_text = lit "/noti")
  then (st, [ReplyText chat NoticeUsage])
  else
    let notice_message := py_strip (py_slice_from 5 message_text) in
    if bool_decide (user_ids st = ∅) then (st, [ReplyText chat NoRecipients])
    else
      let '(uids, file, failed, o) :=
        notice_loop e (NoticeText notice_message) (elements (user_ids st))
          (user_ids st) (user_ids_file st) [] in
      let report :=
        match failed with
        | [] => NoticeAll (size uids)
        | _ => NoticePartial (length failed) (size uids)
        end in
      (set_user_ids uids file st, o ++ [ReplyText chat report]).

(** [delall_confirm_prompt] and [delhistory_confirm_prompt], under
    [@admin_only]: the two differ in the action they record and in the text
    of the prompt.  [create_task(confirm_timeout(...))] appends a sleeping
    task; its index is the task object kept in [bot_data]. *)
Definition confirm_prompt (a : action) (chat : Z) (st : state)
    : state * list effect :=
  if negb (is_admin st chat) then (st, [ReplyText chat NeedAdmin])
  else
    match confirm_action st !! chat with
    | Some _ => (st, [ReplyText chat ConfirmBusy])
    | None =>
        (set_confirm (<[chat := a]> (confirm_action st))
           (<[chat := length (tasks st)]> (confirm_task st))
           (tasks st ++ [Sleeping chat]) st,
         [ReplyText chat
            match a with
            | delall => DelallPrompt
            | delhistory => DelhistoryPrompt
            end])
    end.

Definition delall_confirm_prompt := confirm_prompt delall.
Definition delhistory_confirm_prompt := confirm_prompt delhistory.

(** [confirm_timeout], from the moment its [asyncio.sleep(30)] is over; a
    task that was cancelled or has ended never gets there. *)
Definition confirm_timeout (e : env) (task : nat) (st : state)
    : state * list effect :=
  match tasks st !! task with
  | Some (Sleeping chat) =>
      let ts := <[task := Finished]> (tasks st) in
      match confirm_action st !! chat with
      | Some _ =>
          (set_confirm (delete chat (confirm_action st))
             (delete chat (confirm_task st)) ts st,
           [SendMessage chat TimeoutText (send_message e chat TimeoutText)])
      | None => (set_confirm (confirm_action st) (confirm_task st) ts st, [])
      end
  | _ => (st, [])
  end.

(** [task.cancel()]: a sleeping task is cancelled, another one is left. *)
Definition cancel (task : nat) (ts : list task_state) : list task_state :=
  match ts !! task with
  | Some (Sleeping _) => <[task := Cancelled]> ts
  | _ => ts
  end.

(** Whether a handler returned or an exception left it. *)
Inductive completion := Returned | Raised.

(** The loop of the [delall] branch:
    [try: delete_event(it["id"]); count += 1  except HttpError: pass]. *)
Fixpoint delete_items (e : env) (items : list item) (count : Z)
    : completion * Z * list effect :=
  match items with
  | [] => (Returned, count, [])
  | it :: items' =>
      let r := delete_event e (it_id it) in
      match r with
      | Deleted =>
          let '(c, n, o) := delete_items e items' (count + 1) in
          (c, n, DeleteEvent (it_id it) r :: o)
      | DeleteHttpError =>
          let '(c, n, o) := delete_items e items' count in
          (c, n, DeleteEvent (it_id it) r :: o)
      | DeleteOtherError => (Raised, count, [DeleteEvent (it_id it) r])
      end
  end.

(** The loop of the [delhistory] branch, with its test [dt and dt < now]. *)
Fixpoint delete_past (e : env) (now : datetime) (events : list event)
    (count : Z) : completion * Z * list effect :=
  match events with
  | [] => (Returned, count, [])
  | ev :: events' =>
      match get_event_start_dt ev with
      | Some dt =>
          if dt_ltb dt now then
            let r := delete_event e (ev_id ev) in
            match r with
            | Deleted =>
                let '(c, n, o) := delete_past e now events' (count + 1) in
                (c, n, DeleteEvent (ev_id ev) r :: o)
            | DeleteHttpError =>
                let '(c, n, o) := delete_past e now events' count in
                (c, n, DeleteEvent (ev_id ev) r :: o)
            | DeleteOtherError => (Raised, count, [DeleteEvent (ev_id ev) r])
            end
          else delete_past e now events' count
      | None => delete_past e now events' count
      end
  end.

(** [ok_handler] (not under [@admin_only]). *)
Definition ok_handler (e : env) (now : datetime) (chat : Z) (st : state)
    : completion * state * list effect :=
  let action := confirm_action st !! chat in
  let task := confirm_task st !! chat in
  let ts :=
    match task with
    | Some t => cancel t (tasks st)
    | None => tasks st
    end in
  let st :=
    set_confirm (delete chat (confirm_action st))
      (delete chat (confirm_task st)) ts st in
  match action with
  | Some delall =>
      match _sorted_upcoming_items e with
      | None => (Raised, st, [])
      | Some events =>
          match delete_items e events 0 with
          | (Returned, count, o) =>
              (Returned, st, o ++ [ReplyText chat (DeletedUpcoming count)])
          | (Raised, _, o) => (Raised, st, o)
          end
      end
  | Some delhistory =>
      match list_past e 365 with
      | None => (Raised, st, [])
      | Some events =>
          match delete_past e now events 0 with
          | (Returned, count, o) =>
              (Returned, st, o ++ [ReplyText chat (DeletedPast count)])
          | (Raised, _, o) => (Raised, st, o)
          end
      end
  | None => (Returned, st, [ReplyText chat NothingToConfirm])
  end.

(** [mute_schedule] ([mute = true]) and [unmute_schedule] ([mute = false]),
    under [@admin_only].  [arg] is [int(context.args[0])], or [None] when
    that raises; every exception inside ends in the error reply. *)
Definition mute_command (mute : bool) (e : env) (chat : Z) (arg : option Z)
    (st : state) : state * list effect :=
  if negb (is_admin st chat) then (st, [ReplyText chat NeedAdmin])
  else
    match arg with
    | None => (st, [ReplyText chat (MuteError mute)])
    | Some n =>
        let idx := n - 1 in
        match _sorted_upcoming_items e with
        | None => (st, [ReplyText chat (MuteError mute)])
        | Some items =>
            if (0 <=? idx) && (idx <? Z.of_nat (length items)) then
              match items !! Z.to_nat idx with
              | None => (st, [ReplyText chat (MuteError mute)])
              | Some target =>
                  match events_get e (it_id target) with
                  | None => (st, [ReplyText chat (MuteError mute)])
                  | Some ev =>
                      let body := set_mute_on_body ev mute in
                      let ok := events_patch e (it_id target) body in
                      (st,
                       [PatchEvent (it_id target) body ok;
                        ReplyText chat
                          (if ok then MuteDone mute (it_summary target)
                           else MuteError mute)])
                  end
              end
            else (st, [ReplyText chat BadIndex])
        end
    end.

Definition mute_schedule := mute_command true.
Definition unmute_schedule := mute_command false.

(* ===================================================================== *)
(** ** The process: what can happen, one after the other *)
(* ===================================================================== *)

(** An occurrence the process reacts to: a pass of the polling loop, a
    command in a chat, or the end of the sleep of a timeout task.  Each
    comes with the clock value the handler reads, where it reads one. *)
Inductive input :=
  | Tick (now : datetime)
  | CmdStart (chat : Z)
  | CmdNoti (chat : Z) (message_text : pystr)
  | CmdDelall (chat : Z)
  | CmdDelhistory (chat : Z)
  | CmdOk (chat : Z) (now : datetime)
  | CmdMute (chat : Z) (arg : option Z)
  | CmdUnmute (chat : Z) (arg : option Z)
  | TimerEnds (task : nat).

Definition step (e : env) (i : input) (st : state) : state * list effect :=
  match i with
  | Tick now => notify_schedules e now st
  | CmdStart chat => start chat st
  | CmdNoti chat text => notice e chat text st
  | CmdDelall chat => delall_confirm_prompt chat st
  | CmdDelhistory chat => delhistory_confirm_prompt chat st
  | CmdOk chat now => let '(_, st', o) := ok_handler e now chat st in (st', o)
  | CmdMute chat arg => mute_schedule e chat arg st
  | CmdUnmute chat arg => unmute_schedule e chat arg st
  | TimerEnds task => confirm_timeout e task st
  end.

(** A run: each occurrence with the answers the collaborators give then. *)
Fixpoint run (ins : list (env * input)) (st : state) : state * list effect :=
  match ins with
  | [] => (st, [])
  | (e, i) :: ins' =>
      let '(st1, o1) := step e i st in
      let '(st2, o2) := run ins' st1 in
      (st2, o1 ++ o2)
  end.

(** The state of a process that has just started: [main] loads the user
    ids, the ledgers and the confirmations are empty. *)
Definition initial (users : gset Z) (adm : list admin) : state :=
  {| user_ids := users; user_ids_file := users; admins := adm;
     notified_schedules_hour := ∅; notified_schedules_day := ∅;
     notified_schedules_week := ∅;
     confirm_action := ∅; confirm_task := ∅; tasks := [] |}.

(* ===================================================================== *)
(** ** The calendar's [patch] *)
(* ===================================================================== *)

(** Modelled from the spec: the [patch] call of the calendar collaborator,
    which is not part of this program.  Section 6 of the specification gives
    it merge-patch semantics: only the fields the body provides change.  A
    property map of the body is merged into the one of the event, key by
    key, the body's value winning. *)
Definition merge_props (old new : option (gmap pystr pystr))
    : option (gmap pystr pystr) :=
  match new with
  | None => old
  | Some n => Some (n ∪ default ∅ old)
  end.

Definition apply_patch (b : body) (ev : event) : event :=
  {| ev_id := ev_id ev;
     ev_summary :=
       match b_summary b with Some s => Some s | None => ev_summary ev end;
     ev_start := default (ev_start ev) (b_start b);
     ev_end := default (ev_end ev) (b_end b);
     ev_extendedProperties :=
       match b_extendedProperties b with
       | None => ev_extendedProperties ev
       | Some p =>
           Some {| ep_private :=
                     merge_props (ev_extendedProperties ev ≫= ep_private)
                       (ep_private p);
                   ep_shared :=
                     merge_props (ev_extendedProperties ev ≫= ep_shared)
                       (ep_shared p) |}
       end |}.

(* ===================================================================== *)
(** ** Vocabulary of the statements *)
(* ===================================================================== *)

(** The threshold and de-duplication key a reminder was sent for. *)
Definition reminder_key (eff : effect) : option (threshold * pystr) :=
  match eff with
  | SendMessage _ (Reminder th description event_time _) _ =>
      Some (th, uid th event_time description)
  | _ => None
  end.

Definition is_reminder (th : threshold) (eff : effect) : bool :=
  match eff with
  | SendMessage _ (Reminder th' _ _ _) _ => bool_decide (th' = th)
  | _ => false
  end.


(** Replace the ledger of one threshold. *)
Definition set_ledger (th : threshold) (l : gset pystr) (st : state) : state :=
  {| user_ids := user_ids st; user_ids_file := user_ids_file st;
     admins := admins st;
     notified_schedules_hour :=
       match th with THREE_HOUR => l | _ => notified_schedules_hour st end;
     notified_schedules_day :=
       match th with ONE_DAY => l | _ => notified_schedules_day st end;
     notified_schedules_week :=
       match th with ONE_WEEK => l | _ => notified_schedules_week st end;
     confirm_action := confirm_action st; confirm_task := confirm_task st;
     tasks := tasks st |}.

(** The same collaborators with another answer to [list_upcoming]. *)
Definition with_upcoming (l : option (list event)) (e : env) : env :=
  {| list_upcoming := l; list_past := list_past e;
     events_get := events_get e; events_patch := events_patch e;
     delete_event := delete_event e; send_message := send_message e |}.

Definition unmuted (ev : event) : bool := negb (is_muted ev).

(** The confirmation entries of [bot_data] and the timeout tasks fit each
    other: a task is asleep for a chat exactly when it is the task recorded
    for that chat, and a chat has a recorded task exactly when it has a
    recorded action. *)
Record wf (st : state) : Prop := mk_wf {
  wf_sleeping : forall t c,
    tasks st !! t = Some (Sleeping c) -> confirm_task st !! c = Some t;
  wf_task : forall c t,
    confirm_task st !! c = Some t -> tasks st !! t = Some (Sleeping c);
  wf_action : forall c,
    is_Some (confirm_action st !! c) <-> is_Some (confirm_task st !! c)
}.



(** The events of a trailing-year listing that [ok_handler] deletes. *)
Definition past_of (now : datetime) (ev : event) : bool :=
  match get_event_start_dt ev with
  | Some dt => dt_ltb dt now
  | None => false
  end.



(** The event ids a confirmed bulk delete is to remove: the entries of
    [_sorted_upcoming_items()] for [delall], the events of the trailing-year
    listing that started before [now] for [delhistory]; [None] when the
    listing raises. *)
Definition bulk_targets (a : action) (e : env) (now : datetime)
    : option (list pystr) :=
  match a with
  | delall =>
      (fun items : list item => it_id <$> items) <$> _sorted_upcoming_items e
  | delhistory =>
      (fun events : list event => ev_id <$> List.filter (past_of now) events)
        <$> list_past e 365
  end.




(** Effects none of which is a reminder. *)
Definition no_reminders (out : list effect) : Prop :=
  Forall (fun eff => reminder_key eff = None) out.

(** The polling pass among the occurrences. *)
Definition is_tick (i : input) : bool :=
  match i with Tick _ => true | _ => false end.

(** An entry that is not muted. *)
Definition audible (s : item) : bool := negb (it_mute s).

(** The order [items.sort] leaves the entries in. *)
Definition dt_le (x y : item) : Prop :=
  to_micros (it_dt x) <= to_micros (it_dt y).



(** The requests of the mute commands: at most one [patch], whose body is
    the one [set_mute_on_body] builds from the event the calendar returned
    for that id; no [delete], no message. *)
Definition mute_effect_ok (mute : bool) (e : env) (eff : effect) : Prop :=
  match eff with
  | ReplyText _ _ => True
  | PatchEvent i b _ =>
      exists ev, events_get e i = Some ev /\ b = set_mute_on_body ev mute
  | _ => False
  end.

(** Decide a closed decidable statement by evaluation. *)
Ltac by_compute := refine (bool_decide_unpack _ _); vm_compute; exact I.

(* ===================================================================== *)
(** ** Concrete scenarios *)
(* ===================================================================== *)

Module Scenario.

(** 25 December 2024, 09:00 KST: the clock of the examples. *)
Definition now0 : datetime := mk_datetime 2024 12 25 9 0 0 0.

Definition timed (i summary : string) (start : datetime)
    (mute : option string) : event :=
  {| ev_id := lit i; ev_summary := Some (lit summary);
     ev_start := DateTime start; ev_end := NoTime;
     ev_extendedProperties :=
       match mute with
       | None => None
       | Some v =>
           Some {| ep_private := Some {[ lit "mute" := lit v ]};
                   ep_shared := None |}
       end |}.

Arguments timed (i summary)%_string start mute.

(** A meeting that starts exactly three hours after [now0]. *)
Definition meeting : event :=
  timed "ev1" "meeting" (mk_datetime 2024 12 25 12 0 0 0) None.

(** An event one day ahead, one a week ahead and a muted one. *)
Definition rally : event :=
  timed "ev2" "rally" (mk_datetime 2024 12 26 8 30 0 0) None.
Definition congress : event :=
  timed "ev3" "congress" (mk_datetime 2025 1 1 9 0 0 0) None.
Definition quiet : event :=
  timed "ev4" "quiet" (mk_datetime 2024 12 25 12 0 0 0) (Some " V "%string).

Definition calendar : list event := [congress; quiet; rally; meeting].

Definition lookup_event (events : list event) (i : pystr) : option event :=
  find (fun ev => bool_decide (ev_id ev = i)) events.

(** Collaborators over a fixed calendar; [send] decides each delivery. *)
Definition world (events : list event) (send : Z -> message -> send_result)
    : env :=
  {| list_upcoming := Some events;
     list_past := fun _ => Some events;
     events_get := lookup_event events;
     events_patch := fun _ _ => true;
     delete_event := fun _ => Deleted;
     send_message := send |}.

Definition all_delivered : Z -> message -> send_result :=
  fun _ _ => Delivered.
Definition all_blocked : Z -> message -> send_result :=
  fun _ _ => PermanentFailure.
(** Recipient 1 has blocked the bot. *)
Definition one_blocked : Z -> message -> send_result :=
  fun c _ => if c =? 1 then PermanentFailure else Delivered.

Definition boss : admin := {| name := lit "boss"; chat_id := 7 |}.

(** A process that has just started, with three recipients. *)
Definition st0 : state := initial {[1; 2; 3]} [boss].

Definition uid_meeting_hour : pystr :=
  uid THREE_HOUR (mk_datetime 2024 12 25 12 0 0 0) (lit "meeting").

(** The entry of [meeting] in [_sorted_upcoming_items()]. *)
Definition meeting_item : item :=
  {| it_id := lit "ev1"; it_dt := mk_datetime 2024 12 25 12 0 0 0;
     it_summary := lit "meeting"; it_mute := false |}.

Definition quiet_item : item :=
  {| it_id := lit "ev4"; it_dt := mk_datetime 2024 12 25 12 0 0 0;
     it_summary := lit "quiet"; it_mute := true |}.

(** An event with private and shared properties of its own. *)
Definition board : event :=
  {| ev_id := lit "ev5"; ev_summary := Some (lit "board");
     ev_start := DateTime (mk_datetime 2025 2 3 14 0 0 0);
     ev_end := DateTime (mk_datetime 2025 2 3 15 0 0 0);
     ev_extendedProperties :=
       Some {| ep_private :=
                 Some {[ lit "mute" := lit ""; lit "color" := lit "red" ]};
               ep_shared := Some {[ lit "room" := lit "b2" ]} |} |}.

Definition everyone_hears : env := world calendar all_delivered.

(** The state after a first pass at [now0] in which every send failed. *)
Definition st_fired : state :=
  (notify_schedules (world [meeting] all_blocked) now0 st0).1.

(** One minute later. *)
Definition now1 : datetime := mk_datetime 2024 12 25 9 1 0 0.


End Scenario.

(* ===================================================================== *)
(** ** Further vocabulary *)
(* ===================================================================== *)



(** A state the process can be in: what a run leaves, from a start. *)
Definition reachable (st : state) : Prop :=
  exists users adm ins, st = (run ins (initial users adm)).1.

(** The value [is_muted] looks at. *)
Definition mute_value (ev : event) : pystr :=
  default [] (private_of ev !! lit "mute").

Definition all_space (s : pystr) : Prop := Forall (fun c => py_isspace c = true) s.





(* ===================================================================== *)
(** ** More scenarios *)
(* ===================================================================== *)

Module Scenario2.


(** [Scenario.quiet] without the padding of its mute value. *)
Definition quiet_bare : event :=
  Scenario.timed "ev4" "quiet" (mk_datetime 2024 12 25 12 0 0 0)
    (Some "V"%string).

(** A calendar on which the delete of [ev1] ends in a network error. *)
Definition flaky : env :=
  {| list_upcoming := Some Scenario.calendar;
     list_past := fun _ => Some Scenario.calendar;
     events_get := Scenario.lookup_event Scenario.calendar;
     events_patch := fun _ _ => true;
     delete_event :=
       fun i => if bool_decide (i = lit "ev1") then DeleteOtherError
                else Deleted;
     send_message := Scenario.all_delivered |}.

(** The state after the administrator's chat asked for [delall]. *)
Definition st_pending : state := (delall_confirm_prompt 7 Scenario.st0).1.

End Scenario2.

(* ===================================================================== *)
(** ** datetime arithmetic, events and schedule commands *)
(* ===================================================================== *)

(** CPython's [_ord2ymd], the inverse of [_ymd2ord]; [month_day] is its
    last part, from the day of the year (counted from 0) to month and day. *)
Definition DAYS_IN_MONTH : list Z :=
  [-1; 31; 28; 31; 30; 31; 30; 31; 31; 30; 31; 30; 31].

Definition DAYS_BEFORE_MONTH : list Z :=
  [-1; 0; 31; 59; 90; 120; 151; 181; 212; 243; 273; 304; 334].

Definition month_day (n : Z) (leapyear : bool) : Z * Z :=
  let month := Z.shiftr (n + 50) 5 in
  let preceding :=
    nth (Z.to_nat month) DAYS_BEFORE_MONTH 0
    + (if (2 <? month) && leapyear then 1 else 0) in
  if n <? preceding then
    let month := month - 1 in
    let preceding :=
      preceding
      - (nth (Z.to_nat month) DAYS_IN_MONTH 0
         + (if (month =? 2) && leapyear then 1 else 0)) in
    (month, n - preceding + 1)
  else (month, n - preceding + 1).

Definition ord2ymd (n : Z) : Z * Z * Z :=
  let n := n - 1 in
  let n400 := n / 146097 in
  let n := n mod 146097 in
  let n100 := n / 36524 in
  let n := n mod 36524 in
  let n4 := n / 1461 in
  let n := n mod 1461 in
  let n1 := n / 365 in
  let n := n mod 365 in
  let year := n400 * 400 + 1 + n100 * 100 + n4 * 4 + n1 in
  if (n1 =? 4) || (n100 =? 4) then (year - 1, 12, 31)
  else
    let leapyear := (n1 =? 3) && (negb (n4 =? 24) || (n100 =? 3)) in
    let '(month, day) := month_day n leapyear in
    (year, month, day).

Definition MAXORDINAL : Z := 3652059.

(** [dt + td] on a datetime: CPython adds in the timedelta of the day
    ordinal and the time of day, and raises [OverflowError] ([None]) when
    the day leaves the years 1 to 9999. *)
Definition datetime_add (dt : datetime) (td : Z) : option datetime :=
  let total := to_micros dt + td in
  let days := total / 86400000000 in
  let rest := total mod 86400000000 in
  let seconds := rest / 1000000 in
  let microseconds := rest mod 1000000 in
  let hour := seconds / 3600 in
  let rem := seconds mod 3600 in
  let minute := rem / 60 in
  let second := rem mod 60 in
  if (0 <? days) && (days <=? MAXORDINAL) then
    let '(y, m, d) := ord2ymd days in
    Some (mk_datetime y m d hour minute second microseconds)
  else None.

(** [ensure_end]: the default duration of one hour. *)
Definition ensure_end (dt_start : datetime) : option datetime :=
  datetime_add dt_start (timedelta 0 1 0).

(** The fields of a datetime Python accepts. *)
Definition days_in_month (y m : Z) : Z :=
  if (m =? 2) && is_leap y then 29 else nth (Z.to_nat m) DAYS_IN_MONTH 0.

Definition valid_datetime (dt : datetime) : Prop :=
  1 <= year dt <= 9999 /\ 1 <= month dt <= 12
  /\ 1 <= day dt <= days_in_month (year dt) (month dt)
  /\ 0 <= hour dt < 24 /\ 0 <= minute dt < 60 /\ 0 <= second dt < 60
  /\ 0 <= microsecond dt < 1000000.

(** The check behind the proof that [month_day] inverts the table of the
    days before a month, for one day of the year and both kinds of year. *)
Definition month_day_inverts (n : Z) (leap : bool) : bool :=
  let '(m, d) := month_day n leap in
  (1 <=? m) && (m <=? 12) && (1 <=? d)
  && (d <=? (if (m =? 2) && leap then 29 else nth (Z.to_nat m) DAYS_IN_MONTH 0))
  && (nth (Z.to_nat m) [0; 0; 31; 59; 90; 120; 151; 181; 212; 243; 273; 304; 334] 0
      + (if (2 <? m) && leap then 1 else 0) + d =? n + 1).

(** [create_event] and [patch_event]: the bodies they send.  [None] is the
    [OverflowError] of [ensure_end]. *)
Definition mute_property (mute : bool) : extended_properties :=
  {| ep_private := Some {[ lit "mute" := if mute then lit "v" else [] ]};
     ep_shared := None |}.

Definition create_event_body (dt_kst : datetime) (summary : pystr)
    (mute : bool) : option body :=
  match ensure_end dt_kst with
  | None => None
  | Some dt_end =>
      Some {| b_summary := Some summary;
              b_start := Some (DateTime dt_kst);
              b_end := Some (DateTime dt_end);
              b_extendedProperties := Some (mute_property mute) |}
  end.

Definition patch_event_body (dt_kst : option datetime)
    (summary : option pystr) (mute : option bool) : option body :=
  match dt_kst with
  | Some dt =>
      match ensure_end dt with
      | None => None
      | Some dt_end =>
          Some {| b_summary := summary;
                  b_start := Some (DateTime dt);
                  b_end := Some (DateTime dt_end);
                  b_extendedProperties := mute_property <$> mute |}
      end
  | None =>
      Some {| b_summary := summary; b_start := None; b_end := None;
              b_extendedProperties := mute_property <$> mute |}
  end.

(* ===================================================================== *)
(** ** The other commands *)
(* ===================================================================== *)

(** [update.message.chat.type] *)
Inductive chat_type := ChatPrivate | ChatGroup | ChatSupergroup | ChatChannel.

Definition in_group (t : chat_type) : bool :=
  match t with ChatGroup | ChatSupergroup => true | _ => false end.

(** What a handler reads of its [update]: the user that wrote (the key of
    [context.user_data]), the chat and its type. *)
Record update := mk_update { u_user : Z; u_chat : Z; u_type : chat_type }.

(** [context.user_data["admin_state"]] *)
Inductive admin_state := awaiting_password | awaiting_name.

(** The whole bot: the state above and the [user_data] of each user. *)
Record bot := mk_bot { core : state; user_data : gmap Z admin_state }.

Definition set_admins (a : list admin) (st : state) : state :=
  {| user_ids := user_ids st; user_ids_file := user_ids_file st; admins := a;
     notified_schedules_hour := notified_schedules_hour st;
     notified_schedules_day := notified_schedules_day st;
     notified_schedules_week := notified_schedules_week st;
     confirm_action := confirm_action st; confirm_task := confirm_task st;
     tasks := tasks st |}.

(** The replies of these commands. *)
Inductive answer :=
  | Forbidden
  | PrivateOnly | AlreadyAdmin | AskPassword
  | GroupOnly | RoomUsage | WrongPassword | RoomAlready
  | RoomGranted (room_name : pystr)
  | AskName | Registered (admin_name : pystr) | Help
  | NoAdmins | AdminList (names : list pystr)
  | NothingToDelete | AdminDeleted (admin_name : pystr) | InvalidNumber
  | AdminDelUsage
  | AdminNoticeUsage | AdminNoticePartial (failed success : Z)
  | AdminNoticeAll (success : Z)
  | UserCount (n : nat)
  | AddUsage | PastAdd | Added (summary : pystr) (dt now : datetime) | AddError
  | EditUsage | PastEdit | Edited (summary : pystr) (dt now : datetime)
  | EditBadIndex | EditError
  | NoSchedules | Schedules (items : list item) (now : datetime)
  | ScheduleDeleted (target : item) (now : datetime) | DelBadIndex | DelError.

(** What these commands do to the collaborators. *)
Inductive request :=
  | Answer (chat : Z) (a : answer)
  | AdminSend (chat : Z) (notice_message : pystr) (r : send_result)
  | EventsInsert (b : body) (ok : bool)
  | EventsPatch (event_id : pystr) (b : body) (ok : bool)
  | EventsDelete (event_id : pystr) (r : delete_result).

(** The collaborators of these commands: those above, the send of an
    administrators' notice, the calendar's [insert] ([false]: it raises),
    and the two readers of the arguments, [strptime] behind
    [parse_yyMMdd_HHmm] and [int] ([None]: they raise). *)
Record env2 := mk_env2 {
  base : env;
  send_admin_notice : Z -> pystr -> send_result;
  events_insert : body -> bool;
  parse_yyMMdd_HHmm : pystr -> pystr -> option datetime;
  int : pystr -> option Z
}.

(** [" ".join(args)] *)
Fixpoint py_join (sep : pystr) (l : list pystr) : pystr :=
  match l with
  | [] => []
  | [x] => x
  | x :: l' => x ++ sep ++ py_join sep l'
  end.

(** [@admin_only] *)
Definition admin_only (chat : Z) (b : bot)
    (func : bot * list request) : bot * list request :=
  if is_admin (core b) chat then func else (b, [Answer chat Forbidden]).

(** [admin_command] *)
Definition admin_command (u : update) (b : bot) : bot * list request :=
  if in_group (u_type u) then (b, [Answer (u_chat u) PrivateOnly])
  else if is_admin (core b) (u_chat u) then (b, [Answer (u_chat u) AlreadyAdmin])
  else
    ({| core := core b;
        user_data := <[u_user u := awaiting_password]> (user_data b) |},
     [Answer (u_chat u) AskPassword]).

(** [adminroom_command]; [room_suffix] is the text "(단톡방)". *)
Definition room_suffix : pystr := [40; 45800; 53665; 48169; 41]%N.

Definition adminroom_command (ADMIN_PASSWORD : pystr) (u : update)
    (args : list pystr) (b : bot) : bot * list request :=
  if negb (in_group (u_type u)) then (b, [Answer (u_chat u) GroupOnly])
  else
    match args with
    | password :: (_ :: _) as rest =>
        let room_name := py_join (lit " ") rest in
        if negb (bool_decide (password = ADMIN_PASSWORD))
        then (b, [Answer (u_chat u) WrongPassword])
        else if is_admin (core b) (u_chat u)
        then (b, [Answer (u_chat u) RoomAlready])
        else
          ({| core :=
                set_admins
                  (admins (core b)
                   ++ [{| name := room_name ++ room_suffix;
                          chat_id := u_chat u |}]) (core b);
              user_data := user_data b |},
           [Answer (u_chat u) (RoomGranted room_name)])
    | _ => (b, [Answer (u_chat u) RoomUsage])
    end.

(** [fallback_handler] *)
Definition fallback_handler (u : update) (b : bot) : bot * list request :=
  match u_type u with
  | ChatPrivate => (b, [Answer (u_chat u) Help])
  | _ => (b, [])
  end.

(** [handle_user_input]: a text that is not a command. *)
Definition handle_user_input (ADMIN_PASSWORD : pystr) (u : update)
    (message_text : pystr) (b : bot) : bot * list request :=
  let text := py_strip message_text in
  match user_data b !! u_user u with
  | Some awaiting_password =>
      if bool_decide (text = ADMIN_PASSWORD) then
        ({| core := core b;
            user_data := <[u_user u := awaiting_name]> (user_data b) |},
         [Answer (u_chat u) AskName])
      else
        ({| core := core b; user_data := delete (u_user u) (user_data b) |},
         [Answer (u_chat u) WrongPassword])
  | Some awaiting_name =>
      ({| core :=
            set_admins
              (admins (core b) ++ [{| name := text; chat_id := u_chat u |}])
              (core b);
          user_data := delete (u_user u) (user_data b) |},
       [Answer (u_chat u) (Registered text)])
  | None => fallback_handler u b
  end.

(** [admin_list_command] *)
Definition admin_list_command (u : update) (b : bot) : bot * list request :=
  admin_only (u_chat u) b
    match admins (core b) with
    | [] => (b, [Answer (u_chat u) NoAdmins])
    | _ => (b, [Answer (u_chat u) (AdminList (name <$> admins (core b)))])
    end.

(** [admin_delete_command] *)
Definition admin_delete_command (e : env2) (u : update) (args : list pystr)
    (b : bot) : bot * list request :=
  admin_only (u_chat u) b
    match admins (core b) with
    | [] => (b, [Answer (u_chat u) NothingToDelete])
    | _ =>
        match head args ≫= int e with
        | None => (b, [Answer (u_chat u) AdminDelUsage])
        | Some n =>
            let idx := n - 1 in
            if (0 <=? idx) && (idx <? Z.of_nat (length (admins (core b)))) then
              match admins (core b) !! Z.to_nat idx with
              | Some deleted =>
                  ({| core :=
                        set_admins (delete (Z.to_nat idx) (admins (core b)))
                          (core b);
                      user_data := user_data b |},
                   [Answer (u_chat u) (AdminDeleted (name deleted))])
              | None => (b, [Answer (u_chat u) AdminDelUsage])
              end
            else (b, [Answer (u_chat u) InvalidNumber])
        end
    end.

(** [admin_notice] *)
Definition admin_notice (e : env2) (u : update) (message_text : pystr)
    (b : bot) : bot * list request :=
  admin_only (u_chat u) b
    (if bool_decide (py_strip message_text = [])
        || bool_decide (py_strip message_text = lit "/adminnoti")
     then (b, [Answer (u_chat u) AdminNoticeUsage])
     else
       let notice_message := py_strip (py_slice_from 10 message_text) in
       match admins (core b) with
       | [] => (b, [Answer (u_chat u) NoAdmins])
       | _ =>
           let sends :=
             (fun a => AdminSend (chat_id a) notice_message
                         (send_admin_notice e (chat_id a) notice_message))
               <$> admins (core b) in
           let failed :=
             List.filter
               (fun a => raises (send_admin_notice e (chat_id a) notice_message))
               (admins (core b)) in
           let success :=
             Z.of_nat (length (admins (core b))) - Z.of_nat (length failed) in
           (b,
            sends
            ++ [Answer (u_chat u)
                  match failed with
                  | [] => AdminNoticeAll success
                  | _ => AdminNoticePartial (Z.of_nat (length failed)) success
                  end])
       end).

(** [user_count_command] *)
Definition user_count_command (u : update) (b : bot) : bot * list request :=
  admin_only (u_chat u) b
    (b, [Answer (u_chat u) (UserCount (size (user_ids (core b))))]).

(** [add_schedule]; [now] and [now'] are its two readings of the clock. *)
Definition add_schedule (e : env2) (u : update) (args : list pystr)
    (now now' : datetime) (b : bot) : bot * list request :=
  admin_only (u_chat u) b
    match args with
    | s_date :: s_time :: (_ :: _) as rest =>
        match parse_yyMMdd_HHmm e s_date s_time with
        | None => (b, [Answer (u_chat u) AddError])
        | Some dt =>
            let summary := py_strip (py_join (lit " ") rest) in
            if dt_ltb dt now then (b, [Answer (u_chat u) PastAdd])
            else
              match create_event_body dt summary false with
              | None => (b, [Answer (u_chat u) AddError])
              | Some body =>
                  let ok := events_insert e body in
                  (b,
                   [EventsInsert body ok;
                    Answer (u_chat u)
                      (if ok then Added summary dt now' else AddError)])
              end
        end
    | _ => (b, [Answer (u_chat u) AddUsage])
    end.

(** [edit_schedule] *)
Definition edit_schedule (e : env2) (u : update) (args : list pystr)
    (now now' : datetime) (b : bot) : bot * list request :=
  admin_only (u_chat u) b
    match args with
    | s_idx :: s_date :: s_time :: (_ :: _) as rest =>
        match int e s_idx with
        | None => (b, [Answer (u_chat u) EditError])
        | Some n =>
            let idx := n - 1 in
            match parse_yyMMdd_HHmm e s_date s_time with
            | None => (b, [Answer (u_chat u) EditError])
            | Some dt =>
                let summary := py_strip (py_join (lit " ") rest) in
                match _sorted_upcoming_items (base e) with
                | None => (b, [Answer (u_chat u) EditError])
                | Some items =>
                    if (0 <=? idx) && (idx <? Z.of_nat (length items)) then
                      match items !! Z.to_nat idx with
                      | None => (b, [Answer (u_chat u) EditError])
                      | Some target =>
                          if dt_ltb dt now
                          then (b, [Answer (u_chat u) PastEdit])
                          else
                            match patch_event_body (Some dt) (Some summary)
                                    (Some (it_mute target)) with
                            | None => (b, [Answer (u_chat u) EditError])
                            | Some body =>
                                let ok :=
                                  events_patch (base e) (it_id target) body in
                                (b,
                                 [EventsPatch (it_id target) body ok;
                                  Answer (u_chat u)
                                    (if ok then Edited summary dt now'
                                     else EditError)])
                            end
                      end
                    else (b, [Answer (u_chat u) EditBadIndex])
                end
            end
        end
    | _ => (b, [Answer (u_chat u) EditUsage])
    end.

(** [list_schedules]; a listing that raises leaves the handler without a
    reply. *)
Definition list_schedules (e : env2) (u : update) (now : datetime) (b : bot)
    : bot * list request :=
  match _sorted_upcoming_items (base e) with
  | None => (b, [])
  | Some [] => (b, [Answer (u_chat u) NoSchedules])
  | Some items => (b, [Answer (u_chat u) (Schedules items now)])
  end.

(** [delete_schedule] *)
Definition delete_schedule (e : env2) (u : update) (args : list pystr)
    (now : datetime) (b : bot) : bot * list request :=
  admin_only (u_chat u) b
    match head args ≫= int e with
    | None => (b, [Answer (u_chat u) DelError])
    | Some n =>
        let idx := n - 1 in
        match _sorted_upcoming_items (base e) with
        | None => (b, [Answer (u_chat u) DelError])
        | Some items =>
            if (0 <=? idx) && (idx <? Z.of_nat (length items)) then
              match items !! Z.to_nat idx with
              | None => (b, [Answer (u_chat u) DelError])
              | Some target =>
                  let r := delete_event (base e) (it_id target) in
                  (b,
                   [EventsDelete (it_id target) r;
                    Answer (u_chat u)
                      match r with
                      | Deleted => ScheduleDeleted target now
                      | _ => DelError
                      end])
              end
            else (b, [Answer (u_chat u) DelBadIndex])
        end
    end.

(** Everything that can happen to the bot. *)
Inductive input2 :=
  | Core (e : env) (i : input)
  | CmdAdmin (u : update)
  | CmdAdminroom (u : update) (args : list pystr)
  | Text (u : update) (message_text : pystr)
  | CmdAdminlist (u : update)
  | CmdAdmindel (u : update) (args : list pystr)
  | CmdAdminnoti (u : update) (message_text : pystr)
  | CmdUser (u : update)
  | CmdAdd (u : update) (args : list pystr) (now now' : datetime)
  | CmdEdit (u : update) (args : list pystr) (now now' : datetime)
  | CmdList (u : update) (now : datetime)
  | CmdDel (u : update) (args : list pystr) (now : datetime).

Definition step2 (ADMIN_PASSWORD : pystr) (e : env2) (i : input2) (b : bot)
    : bot * list (effect + request) :=
  let lift (r : bot * list request) := (r.1, inr <$> r.2) in
  match i with
  | Core e0 i0 =>
      let '(st, o) := step e0 i0 (core b) in
      ({| core := st; user_data := user_data b |}, inl <$> o)
  | CmdAdmin u => lift (admin_command u b)
  | CmdAdminroom u args => lift (adminroom_command ADMIN_PASSWORD u args b)
  | Text u text => lift (handle_user_input ADMIN_PASSWORD u text b)
  | CmdAdminlist u => lift (admin_list_command u b)
  | CmdAdmindel u args => lift (admin_delete_command e u args b)
  | CmdAdminnoti u text => lift (admin_notice e u text b)
  | CmdUser u => lift (user_count_command u b)
  | CmdAdd u args now now' => lift (add_schedule e u args now now' b)
  | CmdEdit u args now now' => lift (edit_schedule e u args now now' b)
  | CmdList u now => lift (list_schedules e u now b)
  | CmdDel u args now => lift (delete_schedule e u args now b)
  end.

Fixpoint run2 (ADMIN_PASSWORD : pystr) (ins : list (env2 * input2)) (b : bot)
    : bot * list (effect + request) :=
  match ins with
  | [] => (b, [])
  | (e, i) :: ins' =>
      let '(b1, o1) := step2 ADMIN_PASSWORD e i b in
      let '(b2, o2) := run2 ADMIN_PASSWORD ins' b1 in
      (b2, o1 ++ o2)
  end.

(** An occurrence in which the administrators' password is typed: as a
    text, or as the first argument of [/adminroom]. *)
Definition types_password (ADMIN_PASSWORD : pystr) (x : env2 * input2) : Prop :=
  match x.2 with
  | Text _ text => py_strip text = ADMIN_PASSWORD
  | CmdAdminroom _ (password :: _) => password = ADMIN_PASSWORD
  | _ => False
  end.

(** No user is at the point of giving the name of a new administrator. *)
Definition guarded (b : bot) : Prop :=
  forall u, user_data b !! u <> Some awaiting_name.

(* ===================================================================== *)
(** ** A scenario for the other commands *)
(* ===================================================================== *)

Module Scenario3.

(** [int] on the numbers the scenario uses. *)
Definition int_small (s : pystr) : option Z :=
  if bool_decide (s = lit "0") then Some 0
  else if bool_decide (s = lit "1") then Some 1
  else if bool_decide (s = lit "2") then Some 2
  else if bool_decide (s = lit "9") then Some 9
  else None.

(** The last half hour of 2024. *)
Definition new_year_eve : datetime := mk_datetime 2024 12 31 23 30 15 7.

(** [parse_yyMMdd_HHmm] on the one date the scenario types. *)
Definition parse_eve (s_date s_time : pystr) : option datetime :=
  if bool_decide (s_date = lit "241231") && bool_decide (s_time = lit "2330")
  then Some (mk_datetime 2024 12 31 23 30 0 0)
  else None.

Definition env3 : env2 :=
  {| base := Scenario.everyone_hears;
     send_admin_notice := fun _ _ => Delivered;
     events_insert := fun _ => true;
     parse_yyMMdd_HHmm := parse_eve;
     int := int_small |}.

(** The bot of [Scenario.st0], nobody in a dialogue. *)
Definition bot0 : bot := {| core := Scenario.st0; user_data := ∅ |}.

(** A user who is no administrator, in a private chat. *)
Definition mallory : update :=
  {| u_user := 9; u_chat := 9; u_type := ChatPrivate |}.

(** The administrator, in the private chat 7. *)
Definition boss_chat : update :=
  {| u_user := 7; u_chat := 7; u_type := ChatPrivate |}.

(** [/admin], a wrong guess, and a name. *)
Definition intruder : list (env2 * input2) :=
  [(env3, CmdAdmin mallory); (env3, Text mallory (lit " guess "));
   (env3, Text mallory (lit "Mallory"))].

End Scenario3.

(* ===================================================================== *)
(** * Properties *)
(* ===================================================================== *)

(** ** The time windows *)

Lemma in_window_spec th diff :
  in_window th diff = true <-> window_lo th < diff <= window_hi th.
Proof. unfold in_window. rewrite andb_true_iff, Z.ltb_lt, Z.leb_le. tauto. Qed.

Lemma in_window_positive th diff : in_window th diff = true -> 0 < diff.
Proof.
  rewrite in_window_spec. destruct th; unfold window_lo, window_hi, timedelta; lia.
Qed.

(** The ledgers and the recipients across one [if] block of the pass. *)
Lemma ledger_ledger_add th th' k st :
  ledger th' (ledger_add th k st) =
  if decide (th = th') then {[k]} ∪ ledger th' st else ledger th' st.
Proof. destruct th, th'; reflexivity. Qed.

Lemma user_ids_ledger_add th k st : user_ids (ledger_add th k st) = user_ids st.
Proof. reflexivity. Qed.

Lemma notify_threshold_user_ids e now s th st :
  user_ids (notify_threshold e now s th st).1 = user_ids st.
Proof. unfold notify_threshold. repeat case_match; reflexivity. Qed.

Lemma notify_threshold_other_ledger e now s th th' st :
  th <> th' ->
  ledger th' (notify_threshold e now s th st).1 = ledger th' st.
Proof.
  intros Hne. unfold notify_threshold. repeat case_match; try reflexivity.
  simpl. rewrite ledger_ledger_add. by rewrite decide_False.
Qed.

Lemma is_reminder_fan_out e chats th th' d t n eff :
  eff ∈ fan_out e chats (Reminder th d t n) ->
  is_reminder th' eff = bool_decide (th = th').
Proof.
  unfold fan_out. intros (c & -> & _)%list_elem_of_fmap. reflexivity.
Qed.

(** The reminders of one threshold in the output of one block. *)
Lemma notify_threshold_reminder e now s th th' st eff :
  eff ∈ (notify_threshold e now s th st).2 ->
  is_reminder th' eff = true ->
  th = th' /\ in_window th (dt_sub (it_dt s) now) = true
  /\ uid th (it_dt s) (it_summary s) ∉ ledger th st.
Proof.
  unfold notify_threshold.
  destruct (in_window _ _) eqn:Hw; [|by intros ?%elem_of_nil].
  case_bool_decide as Hin; [by intros ?%elem_of_nil|].
  simpl. intros Hin' Hr. rewrite (is_reminder_fan_out _ _ _ _ _ _ _ _ Hin') in Hr.
  apply bool_decide_eq_true in Hr. done.
Qed.

Lemma notify_threshold_due e now s th st :
  in_window th (dt_sub (it_dt s) now) = true ->
  uid th (it_dt s) (it_summary s) ∉ ledger th st ->
  notify_threshold e now s th st =
  (ledger_add th (uid th (it_dt s) (it_summary s)) st,
   fan_out e (elements (user_ids st))
     (Reminder th (it_summary s) (it_dt s) now)).
Proof.
  intros Hw Hin. unfold notify_threshold. rewrite Hw.
  by rewrite bool_decide_eq_false_2.
Qed.

Lemma elements_nonempty (X : gset Z) : X <> ∅ -> exists c, c ∈ elements X.
Proof.
  intros Hne. destruct (elements X) as [|c l] eqn:Hel.
  - by apply elements_empty_inv, leibniz_equiv in Hel.
  - exists c. left.
Qed.

(** The reminders one event gives rise to are those of the thresholds whose
    window holds the event and whose ledger does not hold its key yet. *)
Lemma notify_item_reminder e now s st th :
  it_mute s = false ->
  user_ids st <> ∅ ->
  uid th (it_dt s) (it_summary s) ∉ ledger th st ->
  in_window th (dt_sub (it_dt s) now) = true <->
  exists eff, eff ∈ (notify_item e now s st).2 /\ is_reminder th eff = true.
Proof.
  intros Hm Hu Hk. unfold notify_item. rewrite Hm.
  destruct (notify_threshold e now s THREE_HOUR st) as [st1 o1] eqn:H1.
  destruct (notify_threshold e now s ONE_DAY st1) as [st2 o2] eqn:H2.
  destruct (notify_threshold e now s ONE_WEEK st2) as [st3 o3] eqn:H3.
  assert (Hst1 : st1 = (notify_threshold e now s THREE_HOUR st).1) by by rewrite H1.
  assert (Hst2 : st2 = (notify_threshold e now s ONE_DAY st1).1) by by rewrite H2.
  simpl. split.
  - intros Hw.
    destruct (elements_nonempty _ Hu) as [c Hc].
    exists (SendMessage c (Reminder th (it_summary s) (it_dt s) now)
              (send_message e c (Reminder th (it_summary s) (it_dt s) now))).
    split; [|by simpl; rewrite bool_decide_eq_true_2].
    assert (Hfan : forall st', user_ids st' = user_ids st ->
      SendMessage c (Reminder th (it_summary s) (it_dt s) now)
        (send_message e c (Reminder th (it_summary s) (it_dt s) now))
      ∈ fan_out e (elements (user_ids st'))
          (Reminder th (it_summary s) (it_dt s) now)).
    { intros st' ->. unfold fan_out. apply list_elem_of_fmap. eauto. }
    rewrite !elem_of_app. destruct th.
    + left. rewrite notify_threshold_due in H1 by done.
      injection H1 as _ <-. by apply Hfan.
    + right; left. rewrite notify_threshold_due in H2; [| done |].
      * injection H2 as _ <-. apply Hfan. subst st1.
        apply notify_threshold_user_ids.
      * subst st1. by rewrite notify_threshold_other_ledger.
    + right; right. rewrite notify_threshold_due in H3; [| done |].
      * injection H3 as _ <-. apply Hfan. subst st2 st1.
        by rewrite !notify_threshold_user_ids.
      * subst st2 st1. by rewrite !notify_threshold_other_ledger.
  - intros (eff & Hin & Hr). rewrite !elem_of_app in Hin.
    destruct Hin as [Hin|[Hin|Hin]].
    + replace o1 with (notify_threshold e now s THREE_HOUR st).2 in Hin
        by by rewrite H1.
      by destruct (notify_threshold_reminder _ _ _ _ _ _ _ Hin Hr) as (-> & ? & _).
    + replace o2 with (notify_threshold e now s ONE_DAY st1).2 in Hin
        by by rewrite H2.
      by destruct (notify_threshold_reminder _ _ _ _ _ _ _ Hin Hr) as (-> & ? & _).
    + replace o3 with (notify_threshold e now s ONE_WEEK st2).2 in Hin
        by by rewrite H3.
      by destruct (notify_threshold_reminder _ _ _ _ _ _ _ Hin Hr) as (-> & ? & _).
Qed.

(** C1. With [diff = start - now], the pass takes an event for the 3-hour
    reminder exactly when 179 min < diff <= 180 min, for the 1-day reminder
    exactly when 23 h < diff <= 24 h and for the 1-week reminder exactly when
    6 d < diff <= 7 d (in microseconds below); an event that is not in the
    future is in no window.  For an event that is not muted and whose key is
    not in the ledger, being in the window of a threshold is the same as a
    reminder of that threshold being sent when the pass reaches the event. *)
Theorem C1_time_windows (start now : datetime) :
  let diff := dt_sub start now in
  (in_window THREE_HOUR diff = true <->
     179 * 60000000 < diff <= 180 * 60000000)
  /\ (in_window ONE_DAY diff = true <->
        23 * 3600000000 < diff <= 24 * 3600000000)
  /\ (in_window ONE_WEEK diff = true <->
        6 * 86400000000 < diff <= 7 * 86400000000)
  /\ (diff <= 0 -> forall th, in_window th diff = false)
  /\ (forall e i summary th st,
        user_ids st <> ∅ ->
        uid th start summary ∉ ledger th st ->
        in_window th diff = true <->
        exists eff,
          eff ∈ (notify_item e now (mk_item i start summary false) st).2
          /\ is_reminder th eff = true).
Proof.
  intros diff. split; [|split; [|split; [|split]]].
  1-3: rewrite in_window_spec; unfold window_lo, window_hi, timedelta; lia.
  - intros Hd th. destruct (in_window th diff) eqn:Hw; [|done].
    apply in_window_positive in Hw. lia.
  - intros e i summary th st Hu Hk.
    by apply (notify_item_reminder e now (mk_item i start summary false)).
Qed.

(** ** The ledgers only grow, and gate the reminders *)

Lemma no_reminders_app o1 o2 :
  no_reminders o1 -> no_reminders o2 -> no_reminders (o1 ++ o2).
Proof. apply Forall_app_2. Qed.

Lemma no_reminders_not_key out eff k :
  no_reminders out -> eff ∈ out -> reminder_key eff <> Some k.
Proof.
  intros Hall Hin. rewrite (proj1 (Forall_forall _ _) Hall eff Hin). done.
Qed.

Lemma reminder_key_fan_out e chats th d t n eff :
  eff ∈ fan_out e chats (Reminder th d t n) ->
  reminder_key eff = Some (th, uid th t d).
Proof.
  unfold fan_out. intros (c & -> & _)%list_elem_of_fmap. reflexivity.
Qed.

Lemma notify_threshold_ledger_mono e now s th th' st k :
  k ∈ ledger th' st -> k ∈ ledger th' (notify_threshold e now s th st).1.
Proof.
  intros Hk. unfold notify_threshold.
  repeat case_match; simpl; try assumption.
  rewrite ledger_ledger_add. destruct (decide (th = th')); set_solver.
Qed.

Lemma notify_threshold_gated e now s th th' st k eff :
  k ∈ ledger th' st ->
  eff ∈ (notify_threshold e now s th st).2 ->
  reminder_key eff <> Some (th', k).
Proof.
  intros Hk. unfold notify_threshold.
  destruct (in_window _ _); [|by intros ?%elem_of_nil].
  case_bool_decide as Hin; [by intros ?%elem_of_nil|].
  simpl. intros Hin'%reminder_key_fan_out Heq. rewrite Hin' in Heq.
  injection Heq as -> <-. done.
Qed.

Lemma notify_item_ledger_mono e now s th st k :
  k ∈ ledger th st -> k ∈ ledger th (notify_item e now s st).1.
Proof.
  intros Hk. unfold notify_item. destruct (it_mute s); [done|].
  destruct (notify_threshold e now s THREE_HOUR st) as [st1 o1] eqn:H1.
  destruct (notify_threshold e now s ONE_DAY st1) as [st2 o2] eqn:H2.
  destruct (notify_threshold e now s ONE_WEEK st2) as [st3 o3] eqn:H3.
  simpl.
  replace st3 with (notify_threshold e now s ONE_WEEK st2).1 by by rewrite H3.
  apply notify_threshold_ledger_mono.
  replace st2 with (notify_threshold e now s ONE_DAY st1).1 by by rewrite H2.
  apply notify_threshold_ledger_mono.
  replace st1 with (notify_threshold e now s THREE_HOUR st).1 by by rewrite H1.
  by apply notify_threshold_ledger_mono.
Qed.

Lemma notify_item_gated e now s th st k eff :
  k ∈ ledger th st ->
  eff ∈ (notify_item e now s st).2 ->
  reminder_key eff <> Some (th, k).
Proof.
  intros Hk. unfold notify_item. destruct (it_mute s); [by intros ?%elem_of_nil|].
  destruct (notify_threshold e now s THREE_HOUR st) as [st1 o1] eqn:H1.
  destruct (notify_threshold e now s ONE_DAY st1) as [st2 o2] eqn:H2.
  destruct (notify_threshold e now s ONE_WEEK st2) as [st3 o3] eqn:H3.
  assert (Hk1 : k ∈ ledger th st1).
  { replace st1 with (notify_threshold e now s THREE_HOUR st).1 by by rewrite H1.
    by apply notify_threshold_ledger_mono. }
  assert (Hk2 : k ∈ ledger th st2).
  { replace st2 with (notify_threshold e now s ONE_DAY st1).1 by by rewrite H2.
    by apply notify_threshold_ledger_mono. }
  simpl. rewrite !elem_of_app. intros [Hin|[Hin|Hin]].
  - replace o1 with (notify_threshold e now s THREE_HOUR st).2 in Hin
      by by rewrite H1.
    exact (notify_threshold_gated _ _ _ _ _ _ _ _ Hk Hin).
  - replace o2 with (notify_threshold e now s ONE_DAY st1).2 in Hin
      by by rewrite H2.
    exact (notify_threshold_gated _ _ _ _ _ _ _ _ Hk1 Hin).
  - replace o3 with (notify_threshold e now s ONE_WEEK st2).2 in Hin
      by by rewrite H3.
    exact (notify_threshold_gated _ _ _ _ _ _ _ _ Hk2 Hin).
Qed.

Lemma notify_items_gated e now items th k : forall st,
  k ∈ ledger th st ->
  k ∈ ledger th (notify_items e now items st).1
  /\ forall eff, eff ∈ (notify_items e now items st).2 ->
                 reminder_key eff <> Some (th, k).
Proof.
  induction items as [|s items IH]; intros st Hk; simpl.
  - split; [done|]. by intros eff ?%elem_of_nil.
  - destruct (notify_item e now s st) as [st1 o1] eqn:H1.
    destruct (notify_items e now items st1) as [st2 o2] eqn:H2.
    assert (Hk1 : k ∈ ledger th st1).
    { replace st1 with (notify_item e now s st).1 by by rewrite H1.
      by apply notify_item_ledger_mono. }
    destruct (IH st1 Hk1) as [IHa IHb]. rewrite H2 in IHa, IHb.
    split; [done|]. simpl. intros eff [Hin|Hin]%elem_of_app.
    + replace o1 with (notify_item e now s st).2 in Hin by by rewrite H1.
      exact (notify_item_gated _ _ _ _ _ _ _ Hk Hin).
    + by apply IHb.
Qed.

Lemma notify_schedules_gated e now th k st :
  k ∈ ledger th st ->
  k ∈ ledger th (notify_schedules e now st).1
  /\ forall eff, eff ∈ (notify_schedules e now st).2 ->
                 reminder_key eff <> Some (th, k).
Proof.
  intros Hk. unfold notify_schedules.
  case_bool_decide; [by split; [|intros eff ?%elem_of_nil]|].
  destruct (_sorted_upcoming_items e) as [items|];
    [|by split; [|intros eff ?%elem_of_nil]].
  by apply notify_items_gated.
Qed.

(** What the commands and the timeout leave alone. *)
Lemma notice_loop_spec e m chats : forall uids file failed,
  notice_loop e m chats uids file failed =
  let bad := List.filter (fun c => raises (send_message e c m)) chats in
  (uids ∖ list_to_set bad,
   match bad with [] => file | _ => uids ∖ list_to_set bad end,
   failed ++ bad,
   fan_out e chats m).
Proof.
  induction chats as [|c chats IH]; intros uids file failed; simpl.
  - rewrite app_nil_r. f_equal. f_equal. f_equal. set_solver.
  - destruct (raises (send_message e c m)) eqn:Hr; rewrite IH; simpl.
    + rewrite <- app_assoc. simpl.
      assert (Heq : uids ∖ {[c]} ∖
                list_to_set (List.filter (fun c => raises (send_message e c m)) chats)
              = uids ∖ ({[c]} ∪
                list_to_set (List.filter (fun c => raises (send_message e c m)) chats)))
        by set_solver.
      rewrite Heq. destruct (List.filter _ chats); [|done].
      simpl. do 3 f_equal. set_solver.
    + done.
Qed.

Lemma no_reminders_delete_items e items : forall count,
  no_reminders (delete_items e items count).2.
Proof.
  induction items as [|it items IH]; intros count; simpl; [constructor|].
  destruct (delete_event e (it_id it)).
  - specialize (IH (count + 1)).
    destruct (delete_items e items (count + 1)) as [[c n] o].
    by constructor.
  - specialize (IH count). destruct (delete_items e items count) as [[c n] o].
    by constructor.
  - by repeat constructor.
Qed.

Lemma no_reminders_delete_past e now events : forall count,
  no_reminders (delete_past e now events count).2.
Proof.
  induction events as [|ev events IH]; intros count; simpl; [constructor|].
  destruct (get_event_start_dt ev) as [dt|]; [|done].
  destruct (dt_ltb dt now); [|done].
  destruct (delete_event e (ev_id ev)).
  - specialize (IH (count + 1)).
    destruct (delete_past e now events (count + 1)) as [[c n] o].
    by constructor.
  - specialize (IH count). destruct (delete_past e now events count) as [[c n] o].
    by constructor.
  - by repeat constructor.
Qed.

Lemma no_reminders_fan_out_notice e chats text :
  no_reminders (fan_out e chats (NoticeText text)).
Proof. apply Forall_forall. by intros eff (c & -> & _)%list_elem_of_fmap. Qed.

Lemma ledger_set_user_ids th u f st : ledger th (set_user_ids u f st) = ledger th st.
Proof. by destruct th. Qed.

Lemma ledger_set_confirm th a t ts st :
  ledger th (set_confirm a t ts st) = ledger th st.
Proof. by destruct th. Qed.

Lemma start_frame chat st th :
  ledger th (start chat st).1 = ledger th st /\ no_reminders (start chat st).2.
Proof.
  unfold start. simpl. split; [|by repeat constructor].
  case_bool_decide; [done|]. apply ledger_set_user_ids.
Qed.

Lemma notice_frame e chat text st th :
  ledger th (notice e chat text st).1 = ledger th st
  /\ no_reminders (notice e chat text st).2.
Proof.
  unfold notice.
  destruct (negb (is_admin st chat)); [by split; [|repeat constructor]|].
  destruct (_ || _); [by split; [|repeat constructor]|].
  case_bool_decide; [by split; [|repeat constructor]|].
  rewrite notice_loop_spec. simpl. split; [apply ledger_set_user_ids|].
  apply no_reminders_app; [apply no_reminders_fan_out_notice|].
  by repeat constructor.
Qed.

Lemma confirm_prompt_frame a chat st th :
  ledger th (confirm_prompt a chat st).1 = ledger th st
  /\ no_reminders (confirm_prompt a chat st).2.
Proof.
  unfold confirm_prompt.
  destruct (negb (is_admin st chat)); [by split; [|repeat constructor]|].
  destruct (confirm_action st !! chat); [by split; [|repeat constructor]|].
  simpl. split; [apply ledger_set_confirm|by repeat constructor].
Qed.

Lemma confirm_timeout_frame e task st th :
  ledger th (confirm_timeout e task st).1 = ledger th st
  /\ no_reminders (confirm_timeout e task st).2.
Proof.
  unfold confirm_timeout.
  destruct (tasks st !! task) as [[c| |]|]; try by split; [|repeat constructor].
  destruct (confirm_action st !! c); simpl;
    (split; [apply ledger_set_confirm|by repeat constructor]).
Qed.

Lemma ok_handler_frame e now chat st th :
  ledger th (ok_handler e now chat st).1.2 = ledger th st
  /\ no_reminders (ok_handler e now chat st).2.
Proof.
  unfold ok_handler.
  destruct (confirm_action st !! chat) as [[|]|].
  - destruct (_sorted_upcoming_items e) as [items|];
      [|by split; [apply ledger_set_confirm|constructor]].
    pose proof (no_reminders_delete_items e items 0) as Hno.
    destruct (delete_items e items 0) as [[[|] n] o]; simpl in *;
      (split; [apply ledger_set_confirm|]); [|done].
    apply no_reminders_app; [done|by repeat constructor].
  - destruct (list_past e 365) as [events|];
      [|by split; [apply ledger_set_confirm|constructor]].
    pose proof (no_reminders_delete_past e now events 0) as Hno.
    destruct (delete_past e now events 0) as [[[|] n] o]; simpl in *;
      (split; [apply ledger_set_confirm|]); [|done].
    apply no_reminders_app; [done|by repeat constructor].
  - simpl. split; [apply ledger_set_confirm|by repeat constructor].
Qed.

Lemma mute_command_state mute e chat arg st :
  (mute_command mute e chat arg st).1 = st.
Proof. unfold mute_command. by repeat case_match. Qed.

Lemma mute_command_no_reminders mute e chat arg st :
  no_reminders (mute_command mute e chat arg st).2.
Proof. unfold mute_command. repeat case_match; by repeat constructor. Qed.

(** Apart from the polling pass, nothing touches a ledger or sends a
    reminder. *)
Lemma step_frame e i st th :
  is_tick i = false ->
  ledger th (step e i st).1 = ledger th st /\ no_reminders (step e i st).2.
Proof.
  destruct i; simpl; [done|..]; intros _.
  - apply start_frame.
  - apply notice_frame.
  - apply confirm_prompt_frame.
  - apply confirm_prompt_frame.
  - pose proof (ok_handler_frame e now chat st th) as H.
    by destruct (ok_handler e now chat st) as [[c st'] o].
  - unfold mute_schedule. rewrite mute_command_state.
    split; [done|apply mute_command_no_reminders].
  - unfold unmute_schedule. rewrite mute_command_state.
    split; [done|apply mute_command_no_reminders].
  - apply confirm_timeout_frame.
Qed.

Lemma step_gated e i th k st :
  k ∈ ledger th st ->
  k ∈ ledger th (step e i st).1
  /\ forall eff, eff ∈ (step e i st).2 -> reminder_key eff <> Some (th, k).
Proof.
  intros Hk. destruct (is_tick i) eqn:Hi.
  - destruct i; try done. by apply notify_schedules_gated.
  - destruct (step_frame e i st th Hi) as [-> Hno]. split; [done|].
    intros eff Hin. by eapply no_reminders_not_key.
Qed.

Lemma run_gated ins th k : forall st,
  k ∈ ledger th st ->
  k ∈ ledger th (run ins st).1
  /\ forall eff, eff ∈ (run ins st).2 -> reminder_key eff <> Some (th, k).
Proof.
  induction ins as [|[e i] ins IH]; intros st Hk; simpl.
  - split; [done|]. by intros eff ?%elem_of_nil.
  - destruct (step_gated e i th k st Hk) as [Hk1 Hs].
    destruct (step e i st) as [st1 o1].
    destruct (IH st1 Hk1) as [Hk2 Hr].
    destruct (run ins st1) as [st2 o2]. simpl in *.
    split; [done|]. intros eff [Hin|Hin]%elem_of_app; auto.
Qed.

(** ** The ledgers do not interfere with each other *)

Lemma filter_is_reminder_fan_out e chats th th' d t n :
  List.filter (is_reminder th') (fan_out e chats (Reminder th d t n)) =
  if decide (th = th') then fan_out e chats (Reminder th d t n) else [].
Proof.
  unfold fan_out. induction chats as [|c chats IH]; [by case_decide|].
  rewrite fmap_cons. cbn [List.filter is_reminder]. rewrite IH.
  destruct (decide (th = th')) as [->|Hne].
  - by rewrite bool_decide_eq_true_2.
  - by rewrite bool_decide_eq_false_2.
Qed.

(** The recipients, the ledger of [th'] and the reminders of [th'] after a
    block depend on the recipients and the ledger of [th'] before it only. *)
Lemma notify_threshold_view e now s th th' st1 st2 :
  user_ids st1 = user_ids st2 ->
  ledger th' st1 = ledger th' st2 ->
  user_ids (notify_threshold e now s th st1).1
    = user_ids (notify_threshold e now s th st2).1
  /\ ledger th' (notify_threshold e now s th st1).1
       = ledger th' (notify_threshold e now s th st2).1
  /\ List.filter (is_reminder th') (notify_threshold e now s th st1).2
       = List.filter (is_reminder th') (notify_threshold e now s th st2).2.
Proof.
  intros Hu Hl. rewrite !notify_threshold_user_ids. split; [done|].
  destruct (decide (th = th')) as [->|Hne].
  - unfold notify_threshold. rewrite Hl, Hu.
    destruct (in_window _ _); [|done]. case_bool_decide; [done|].
    simpl. rewrite !ledger_ledger_add, Hl. done.
  - rewrite !notify_threshold_other_ledger by done. split; [done|].
    unfold notify_threshold. destruct (in_window _ _); [|done].
    do 2 case_bool_decide; simpl;
      rewrite ?filter_is_reminder_fan_out, ?decide_False by done; done.
Qed.

Lemma notify_item_view e now s th' st1 st2 :
  user_ids st1 = user_ids st2 ->
  ledger th' st1 = ledger th' st2 ->
  user_ids (notify_item e now s st1).1 = user_ids (notify_item e now s st2).1
  /\ ledger th' (notify_item e now s st1).1
       = ledger th' (notify_item e now s st2).1
  /\ List.filter (is_reminder th') (notify_item e now s st1).2
       = List.filter (is_reminder th') (notify_item e now s st2).2.
Proof.
  intros Hu Hl. unfold notify_item. destruct (it_mute s); [done|].
  destruct (notify_threshold_view e now s THREE_HOUR th' st1 st2 Hu Hl)
    as (Hu1 & Hl1 & Ho1).
  destruct (notify_threshold e now s THREE_HOUR st1) as [a1 p1].
  destruct (notify_threshold e now s THREE_HOUR st2) as [a2 p2].
  simpl in Hu1, Hl1, Ho1.
  destruct (notify_threshold_view e now s ONE_DAY th' a1 a2 Hu1 Hl1)
    as (Hu2 & Hl2 & Ho2).
  destruct (notify_threshold e now s ONE_DAY a1) as [b1 q1].
  destruct (notify_threshold e now s ONE_DAY a2) as [b2 q2].
  simpl in Hu2, Hl2, Ho2.
  destruct (notify_threshold_view e now s ONE_WEEK th' b1 b2 Hu2 Hl2)
    as (Hu3 & Hl3 & Ho3).
  destruct (notify_threshold e now s ONE_WEEK b1) as [c1 r1].
  destruct (notify_threshold e now s ONE_WEEK b2) as [c2 r2].
  simpl in *. rewrite !List.filter_app. by rewrite Ho1, Ho2, Ho3.
Qed.

Lemma notify_items_view e now items th' : forall st1 st2,
  user_ids st1 = user_ids st2 ->
  ledger th' st1 = ledger th' st2 ->
  ledger th' (notify_items e now items st1).1
    = ledger th' (notify_items e now items st2).1
  /\ List.filter (is_reminder th') (notify_items e now items st1).2
       = List.filter (is_reminder th') (notify_items e now items st2).2.
Proof.
  induction items as [|s items IH]; intros st1 st2 Hu Hl; simpl; [done|].
  destruct (notify_item_view e now s th' st1 st2 Hu Hl) as (Hu1 & Hl1 & Ho1).
  destruct (notify_item e now s st1) as [a1 p1].
  destruct (notify_item e now s st2) as [a2 p2]. simpl in Hu1, Hl1, Ho1.
  destruct (IH a1 a2 Hu1 Hl1) as (Hl2 & Ho2).
  destruct (notify_items e now items a1) as [b1 q1].
  destruct (notify_items e now items a2) as [b2 q2].
  simpl in *. rewrite !List.filter_app. by rewrite Ho1, Ho2.
Qed.

Lemma ledger_set_ledger_ne th th' l st :
  th' <> th -> ledger th' (set_ledger th l st) = ledger th' st.
Proof. by destruct th, th'. Qed.

(** C2. Once a key is in the ledger of a threshold, it stays there and no
    reminder of that threshold is sent for that key, whatever happens later
    in the process (polling passes, commands and timeouts, in any order and
    with any answers of the collaborators).  The ledgers are independent:
    whatever the ledger of one threshold holds, a polling pass sends the same
    reminders of every other threshold and leaves the same entries in the
    ledgers of the other thresholds. *)
Theorem C2_fired_once_ledgers_independent :
  (forall th key st ins,
     key ∈ ledger th st ->
     key ∈ ledger th (run ins st).1
     /\ forall eff, eff ∈ (run ins st).2 -> reminder_key eff <> Some (th, key))
  /\ (forall e now st th l th',
        th' <> th ->
        ledger th' (notify_schedules e now (set_ledger th l st)).1
          = ledger th' (notify_schedules e now st).1
        /\ List.filter (is_reminder th')
             (notify_schedules e now (set_ledger th l st)).2
           = List.filter (is_reminder th') (notify_schedules e now st).2).
Proof.
  split.
  - intros th key st ins Hk. by apply run_gated.
  - intros e now st th l th' Hne. unfold notify_schedules.
    replace (user_ids (set_ledger th l st)) with (user_ids st) by done.
    case_bool_decide; simpl; [by rewrite ledger_set_ledger_ne|].
    destruct (_sorted_upcoming_items e) as [items|]; simpl;
      [|by rewrite ledger_set_ledger_ne].
    apply notify_items_view; [done|by apply ledger_set_ledger_ne].
Qed.

(** ** When a ledger entry is made *)









(** ** Muted events *)

Lemma notify_item_muted e now s st :
  it_mute s = true -> notify_item e now s st = (st, []).
Proof. intros Hm. unfold notify_item. by rewrite Hm. Qed.

Lemma notify_items_audible e now items : forall st,
  notify_items e now (List.filter audible items) st
  = notify_items e now items st.
Proof.
  induction items as [|s items IH]; intros st; [done|].
  cbn [List.filter]. unfold audible at 1. destruct (it_mute s) eqn:Hm; simpl.
  - rewrite notify_item_muted by done. rewrite IH.
    by destruct (notify_items e now items st).
  - destruct (notify_item e now s st) as [st1 o1]. by rewrite IH.
Qed.

Lemma insert_by_dt_front x l :
  Forall (fun y => dt_ltb (it_dt x) (it_dt y) = true) l ->
  insert_by_dt x l = x :: l.
Proof. destruct 1 as [|y l Hy _]; simpl; [done|by rewrite Hy]. Qed.

Lemma insert_by_dt_elem x l z :
  z ∈ insert_by_dt x l <-> z = x \/ z ∈ l.
Proof.
  induction l as [|y l IH]; simpl.
  - rewrite list_elem_of_singleton. rewrite elem_of_nil. tauto.
  - destruct (dt_ltb (it_dt x) (it_dt y)).
    + by rewrite elem_of_cons.
    + rewrite !elem_of_cons, IH. tauto.
Qed.

Lemma insert_by_dt_sorted x l :
  StronglySorted dt_le l -> StronglySorted dt_le (insert_by_dt x l).
Proof.
  induction 1 as [|y l Hs IH Hy]; simpl; [by repeat constructor|].
  destruct (dt_ltb (it_dt x) (it_dt y)) eqn:Hlt.
  - apply Z.ltb_lt in Hlt. constructor; [by constructor|].
    constructor; [unfold dt_le; lia|].
    eapply Forall_impl; [exact Hy|]. unfold dt_le. intros z ?. lia.
  - apply Z.ltb_ge in Hlt. constructor; [done|].
    apply Forall_forall. intros z [->|Hz]%insert_by_dt_elem; [done|].
    by apply (proj1 (Forall_forall _ _) Hy).
Qed.

Lemma insert_by_dt_filter p x l :
  StronglySorted dt_le l ->
  List.filter p (insert_by_dt x l) =
  if p x then insert_by_dt x (List.filter p l) else List.filter p l.
Proof.
  induction 1 as [|y l Hs IH Hy]; [simpl; by destruct (p x)|].
  cbn [insert_by_dt]. destruct (dt_ltb (it_dt x) (it_dt y)) eqn:Hlt.
  - cbn [List.filter]. destruct (p x); [|done].
    symmetry. apply insert_by_dt_front.
    apply Z.ltb_lt in Hlt. destruct (p y).
    + constructor; [by apply Z.ltb_lt|].
      apply Forall_forall. intros z Hz%list_elem_of_In%List.filter_In.
      destruct Hz as [Hz%list_elem_of_In _].
      pose proof (proj1 (Forall_forall _ _) Hy z Hz) as Hle.
      apply Z.ltb_lt. unfold dt_le in Hle. lia.
    + apply Forall_forall. intros z Hz%list_elem_of_In%List.filter_In.
      destruct Hz as [Hz%list_elem_of_In _].
      pose proof (proj1 (Forall_forall _ _) Hy z Hz) as Hle.
      apply Z.ltb_lt. unfold dt_le in Hle. lia.
  - cbn [List.filter]. rewrite IH. destruct (p y), (p x); simpl; try done.
    by rewrite Hlt.
Qed.

Lemma foldl_insert_filter p l : forall acc,
  StronglySorted dt_le acc ->
  List.filter p (foldl (fun acc x => insert_by_dt x acc) acc l)
  = foldl (fun acc x => insert_by_dt x acc) (List.filter p acc)
      (List.filter p l).
Proof.
  induction l as [|x l IH]; intros acc Hs; [done|].
  cbn [foldl List.filter]. rewrite IH by by apply insert_by_dt_sorted.
  rewrite insert_by_dt_filter by done. by destruct (p x).
Qed.

Lemma sort_by_dt_filter p l :
  List.filter p (sort_by_dt l) = sort_by_dt (List.filter p l).
Proof. unfold sort_by_dt. rewrite foldl_insert_filter; [done|constructor]. Qed.

Lemma item_of_event_mute ev s :
  item_of_event ev = Some s -> it_mute s = is_muted ev.
Proof.
  unfold item_of_event. destruct (get_event_start_dt ev); [|done].
  by intros [= <-].
Qed.

Lemma omap_item_of_event_unmuted events :
  omap item_of_event (List.filter unmuted events)
  = List.filter audible (omap item_of_event events).
Proof.
  induction events as [|ev events IH]; [done|].
  cbn [List.filter omap list_omap]. unfold unmuted at 1.
  destruct (item_of_event ev) as [s|] eqn:Hs.
  - cbn [List.filter]. unfold audible at 1.
    rewrite (item_of_event_mute _ _ Hs).
    destruct (is_muted ev); simpl; [done|]. rewrite Hs. by f_equal.
  - destruct (is_muted ev); simpl; [done|]. by rewrite Hs.
Qed.

Lemma items_of_events_unmuted events :
  items_of_events (List.filter unmuted events)
  = List.filter audible (items_of_events events).
Proof.
  unfold items_of_events.
  by rewrite omap_item_of_event_unmuted, sort_by_dt_filter.
Qed.

Lemma notify_items_with_upcoming l e now items : forall st,
  notify_items (with_upcoming l e) now items st = notify_items e now items st.
Proof.
  induction items as [|s items IH]; intros st; simpl; [done|].
  change (notify_item (with_upcoming l e) now s st)
    with (notify_item e now s st).
  destruct (notify_item e now s st) as [st1 o1]. by rewrite IH.
Qed.

(** C4. A muted event gives rise to no dispatch: when the pass reaches an
    entry whose mute flag is set it sends nothing and records nothing, for
    every threshold, clock value, state and collaborator; this is the case
    of every event [is_muted] accepts.  A whole pass does exactly what it
    would do if the calendar did not list the muted events at all. *)
Theorem C4_muted_event_never_dispatched (e : env) (now : datetime)
    (st : state) :
  (forall s, it_mute s = true -> notify_item e now s st = (st, []))
  /\ (forall ev s,
        is_muted ev = true -> item_of_event ev = Some s ->
        notify_item e now s st = (st, []))
  /\ notify_schedules e now st
     = notify_schedules
         (with_upcoming (List.filter unmuted <$> list_upcoming e) e) now st.
Proof.
  split; [|split].
  - intros s Hm. by apply notify_item_muted.
  - intros ev s Hm Hs. apply notify_item_muted.
    by rewrite (item_of_event_mute _ _ Hs).
  - unfold notify_schedules, _sorted_upcoming_items. simpl.
    case_bool_decide; [done|].
    destruct (list_upcoming e) as [events|]; simpl; [|done].
    rewrite items_of_events_unmuted.
    rewrite notify_items_with_upcoming. symmetry. apply notify_items_audible.
Qed.

(** ** The confirmation protocol *)

Lemma wf_initial users adm : wf (initial users adm).
Proof. split; simpl; intros *; rewrite ?lookup_empty; done. Qed.

Lemma wf_ext st st' :
  confirm_action st' = confirm_action st ->
  confirm_task st' = confirm_task st ->
  tasks st' = tasks st ->
  wf st -> wf st'.
Proof. intros Ha Ht Hts [H1 H2 H3]. split; rewrite ?Ha, ?Ht, ?Hts; done. Qed.

(** A recorded task leaves its sleep (it ends, or is cancelled) and the two
    entries of its chat are popped. *)
Lemma wf_resolve st chat t x :
  wf st ->
  confirm_task st !! chat = Some t ->
  (forall c, x <> Sleeping c) ->
  wf (set_confirm (delete chat (confirm_action st))
        (delete chat (confirm_task st)) (<[t := x]> (tasks st)) st).
Proof.
  intros [H1 H2 H3] Ht Hx.
  pose proof (H2 _ _ Ht) as Hts.
  assert (Hlen : (t < length (tasks st))%nat) by by eapply lookup_lt_Some.
  split; simpl.
  - intros t' c Hl. destruct (decide (t' = t)) as [->|Hne].
    + rewrite list_lookup_insert_eq in Hl by done.
      injection Hl as Hl. by destruct (Hx c).
    + rewrite list_lookup_insert_ne in Hl by done.
      pose proof (H1 _ _ Hl) as Hc.
      rewrite lookup_delete_ne; [done|]. intros <-. congruence.
  - intros c t' Hl. destruct (decide (chat = c)) as [<-|Hne].
    + by rewrite lookup_delete_eq in Hl.
    + rewrite lookup_delete_ne in Hl by done.
      pose proof (H2 _ _ Hl) as Hc.
      rewrite list_lookup_insert_ne; [done|]. intros <-. congruence.
  - intros c. destruct (decide (chat = c)) as [<-|Hne].
    + rewrite !lookup_delete_eq. split; intros []; done.
    + rewrite !lookup_delete_ne by done. apply H3.
Qed.

Lemma set_confirm_id st :
  set_confirm (confirm_action st) (confirm_task st) (tasks st) st = st.
Proof. by destruct st. Qed.

Lemma wf_no_action st chat :
  wf st -> confirm_action st !! chat = None -> confirm_task st !! chat = None.
Proof.
  intros [_ _ H3] Ha. destruct (confirm_task st !! chat) as [t|] eqn:Ht; [|done].
  destruct (proj2 (H3 chat)) as [a Ha']; [by eexists|]. congruence.
Qed.

Lemma wf_confirm_prompt a chat st : wf st -> wf (confirm_prompt a chat st).1.
Proof.
  intros Hwf. unfold confirm_prompt.
  destruct (negb (is_admin st chat)); [done|].
  destruct (confirm_action st !! chat) eqn:Ha; [done|].
  pose proof (wf_no_action _ _ Hwf Ha) as Ht.
  destruct Hwf as [H1 H2 H3]. split; simpl.
  - intros t c Hl. destruct (decide (t < length (tasks st))%nat) as [Hlt|Hge].
    + rewrite lookup_app_l in Hl by done.
      pose proof (H1 _ _ Hl) as Hc.
      rewrite lookup_insert_ne; [done|]. intros <-. congruence.
    + rewrite lookup_app_r in Hl by lia.
      destruct (t - length (tasks st))%nat as [|n] eqn:Hn; simpl in Hl; [|done].
      injection Hl as <-. replace t with (length (tasks st)) by lia.
      by rewrite lookup_insert_eq.
  - intros c t Hl. destruct (decide (chat = c)) as [<-|Hne].
    + rewrite lookup_insert_eq in Hl. injection Hl as <-.
      rewrite lookup_app_r by lia. by rewrite Nat.sub_diag.
    + rewrite lookup_insert_ne in Hl by done.
      pose proof (H2 _ _ Hl) as Hc.
      rewrite lookup_app_l; [done|]. by eapply lookup_lt_Some.
  - intros c. destruct (decide (chat = c)) as [<-|Hne].
    + rewrite !lookup_insert_eq. split; intros _; by eexists.
    + rewrite !lookup_insert_ne by done. apply H3.
Qed.

Lemma confirm_timeout_sleeping e task chat st :
  wf st ->
  tasks st !! task = Some (Sleeping chat) ->
  confirm_timeout e task st =
  (set_confirm (delete chat (confirm_action st))
     (delete chat (confirm_task st)) (<[task := Finished]> (tasks st)) st,
   [SendMessage chat TimeoutText (send_message e chat TimeoutText)]).
Proof.
  intros Hwf Hts. unfold confirm_timeout. rewrite Hts.
  pose proof (wf_sleeping _ Hwf _ _ Hts) as Ht.
  destruct (proj2 (wf_action _ Hwf chat)) as [a Ha]; [by eexists|].
  by rewrite Ha.
Qed.

Lemma confirm_timeout_not_sleeping e task st :
  (forall c, tasks st !! task <> Some (Sleeping c)) ->
  confirm_timeout e task st = (st, []).
Proof.
  intros Hts. unfold confirm_timeout.
  destruct (tasks st !! task) as [[c| |]|] eqn:Hl; try done.
  by destruct (Hts c).
Qed.

Lemma wf_confirm_timeout e task st : wf st -> wf (confirm_timeout e task st).1.
Proof.
  intros Hwf. destruct (tasks st !! task) as [[c| |]|] eqn:Hts.
  - rewrite (confirm_timeout_sleeping _ _ _ _ Hwf Hts). simpl.
    apply wf_resolve; [done|by apply (wf_sleeping _ Hwf)|done].
  - rewrite confirm_timeout_not_sleeping; [done|]. intros c. by rewrite Hts.
  - rewrite confirm_timeout_not_sleeping; [done|]. intros c. by rewrite Hts.
  - rewrite confirm_timeout_not_sleeping; [done|]. intros c. by rewrite Hts.
Qed.

(** The state [ok_handler] leaves, whatever branch it takes. *)
Lemma ok_handler_state e now chat st :
  (ok_handler e now chat st).1.2 =
  set_confirm (delete chat (confirm_action st)) (delete chat (confirm_task st))
    match confirm_task st !! chat with
    | Some t => cancel t (tasks st)
    | None => tasks st
    end st.
Proof.
  unfold ok_handler. destruct (confirm_action st !! chat) as [[|]|]; [| |done].
  - destruct (_sorted_upcoming_items e) as [items|]; [|done].
    by destruct (delete_items e items 0) as [[[|] n] o].
  - destruct (list_past e 365) as [events|]; [|done].
    by destruct (delete_past e now events 0) as [[[|] n] o].
Qed.

Lemma wf_ok_handler e now chat st : wf st -> wf (ok_handler e now chat st).1.2.
Proof.
  intros Hwf. rewrite ok_handler_state.
  destruct (confirm_task st !! chat) as [t|] eqn:Ht.
  - unfold cancel. rewrite (wf_task _ Hwf _ _ Ht). by apply wf_resolve.
  - assert (Ha : confirm_action st !! chat = None).
    { destruct (confirm_action st !! chat) eqn:Ha; [|done].
      destruct (proj1 (wf_action _ Hwf chat)) as [t Ht']; [by eexists|].
      congruence. }
    rewrite !delete_id by done. by rewrite set_confirm_id.
Qed.

(** The polling pass, [start], [notice] and the mute commands leave the
    confirmation entries and the tasks alone. *)
Lemma notify_threshold_confirm e now s th st :
  let st' := (notify_threshold e now s th st).1 in
  confirm_action st' = confirm_action st /\ confirm_task st' = confirm_task st
  /\ tasks st' = tasks st.
Proof. unfold notify_threshold. by repeat case_match. Qed.

Lemma notify_item_confirm e now s st :
  let st' := (notify_item e now s st).1 in
  confirm_action st' = confirm_action st /\ confirm_task st' = confirm_task st
  /\ tasks st' = tasks st.
Proof.
  unfold notify_item. destruct (it_mute s); [done|].
  pose proof (notify_threshold_confirm e now s THREE_HOUR st) as (A1 & B1 & C1).
  destruct (notify_threshold e now s THREE_HOUR st) as [st1 o1].
  pose proof (notify_threshold_confirm e now s ONE_DAY st1) as (A2 & B2 & C2).
  destruct (notify_threshold e now s ONE_DAY st1) as [st2 o2].
  pose proof (notify_threshold_confirm e now s ONE_WEEK st2) as (A3 & B3 & C3).
  destruct (notify_threshold e now s ONE_WEEK st2) as [st3 o3].
  simpl in *. by rewrite A3, A2, A1, B3, B2, B1, C3, C2, C1.
Qed.

Lemma notify_items_confirm e now items : forall st,
  let st' := (notify_items e now items st).1 in
  confirm_action st' = confirm_action st /\ confirm_task st' = confirm_task st
  /\ tasks st' = tasks st.
Proof.
  induction items as [|s items IH]; intros st; simpl; [done|].
  pose proof (notify_item_confirm e now s st) as (A1 & B1 & C1).
  destruct (notify_item e now s st) as [st1 o1].
  pose proof (IH st1) as (A2 & B2 & C2).
  destruct (notify_items e now items st1) as [st2 o2].
  simpl in *. by rewrite A2, A1, B2, B1, C2, C1.
Qed.

Lemma notify_schedules_confirm e now st :
  let st' := (notify_schedules e now st).1 in
  confirm_action st' = confirm_action st /\ confirm_task st' = confirm_task st
  /\ tasks st' = tasks st.
Proof.
  unfold notify_schedules. case_bool_decide; [done|].
  destruct (_sorted_upcoming_items e); [|done]. apply notify_items_confirm.
Qed.

Lemma start_confirm chat st :
  let st' := (start chat st).1 in
  confirm_action st' = confirm_action st /\ confirm_task st' = confirm_task st
  /\ tasks st' = tasks st.
Proof. unfold start. simpl. by case_bool_decide. Qed.

Lemma notice_confirm e chat text st :
  let st' := (notice e chat text st).1 in
  confirm_action st' = confirm_action st /\ confirm_task st' = confirm_task st
  /\ tasks st' = tasks st.
Proof.
  unfold notice. repeat case_match; try done.
Qed.

Lemma wf_step e i st : wf st -> wf (step e i st).1.
Proof.
  intros Hwf. destruct i; simpl.
  - destruct (notify_schedules_confirm e now st) as (A & B & C).
    by eapply wf_ext.
  - destruct (start_confirm chat st) as (A & B & C). by eapply wf_ext.
  - destruct (notice_confirm e chat message_text st) as (A & B & C).
    by eapply wf_ext.
  - by apply wf_confirm_prompt.
  - by apply wf_confirm_prompt.
  - pose proof (wf_ok_handler e now chat st Hwf) as H.
    by destruct (ok_handler e now chat st) as [[c st'] o].
  - unfold mute_schedule. by rewrite mute_command_state.
  - unfold unmute_schedule. by rewrite mute_command_state.
  - by apply wf_confirm_timeout.
Qed.

Lemma wf_run ins : forall st, wf st -> wf (run ins st).1.
Proof.
  induction ins as [|[e i] ins IH]; intros st Hwf; simpl; [done|].
  pose proof (wf_step e i st Hwf) as H1. destruct (step e i st) as [st1 o1].
  specialize (IH st1 H1). by destruct (run ins st1) as [st2 o2].
Qed.










(** A confirmation where nothing is pending. *)
Lemma ok_handler_idle e now chat st :
  wf st -> confirm_action st !! chat = None ->
  ok_handler e now chat st = (Returned, st, [ReplyText chat NothingToConfirm]).
Proof.
  intros Hwf Ha. pose proof (wf_no_action _ _ Hwf Ha) as Ht.
  unfold ok_handler. rewrite Ha, Ht.
  rewrite !delete_id by done. by rewrite set_confirm_id.
Qed.


(** C6. While a confirmation is pending in a chat, either bulk-delete
    command in that chat changes nothing at all (the recorded action, the
    recorded task and the task itself are as before) and answers with one
    message: that a confirmation is in progress, or, from a chat that is not
    an administrator's, that the command needs the administrator right. *)
Theorem C6_second_destructive_rejected (st : state) (chat : Z) (a : action) :
  is_Some (confirm_action st !! chat) ->
  confirm_prompt a chat st =
    (st, [ReplyText chat (if is_admin st chat then ConfirmBusy else NeedAdmin)])
  /\ delall_confirm_prompt chat st =
       (st, [ReplyText chat (if is_admin st chat then ConfirmBusy else NeedAdmin)])
  /\ delhistory_confirm_prompt chat st =
       (st, [ReplyText chat (if is_admin st chat then ConfirmBusy else NeedAdmin)]).
Proof.
  intros [a0 Ha].
  unfold delall_confirm_prompt, delhistory_confirm_prompt, confirm_prompt.
  rewrite Ha. by destruct (is_admin st chat).
Qed.

(** C10. A confirmation in a chat where nothing is pending issues no delete
    request, leaves the whole state as it is and answers that there is
    nothing to confirm; this is also what a confirmation meets after the
    timeout of the chat has run out. *)
Theorem C10_confirm_without_pending (e : env) (now : datetime) (chat : Z)
    (st : state) :
  wf st ->
  (confirm_action st !! chat = None ->
   ok_handler e now chat st = (Returned, st, [ReplyText chat NothingToConfirm]))
  /\ (forall e1 task,
        tasks st !! task = Some (Sleeping chat) ->
        let st' := (confirm_timeout e1 task st).1 in
        ok_handler e now chat st' =
          (Returned, st', [ReplyText chat NothingToConfirm])).
Proof.
  intros Hwf. split.
  - intros Ha. by apply ok_handler_idle.
  - intros e1 task Hts st'. apply ok_handler_idle.
    + by apply wf_confirm_timeout.
    + unfold st'. rewrite (confirm_timeout_sleeping _ _ _ _ Hwf Hts). simpl.
      by rewrite lookup_delete_eq.
Qed.

(** ** The recipients *)

Lemma notify_threshold_recipients e now s th st :
  let st' := (notify_threshold e now s th st).1 in
  user_ids st' = user_ids st /\ user_ids_file st' = user_ids_file st
  /\ admins st' = admins st.
Proof. unfold notify_threshold. by repeat case_match. Qed.

Lemma notify_item_recipients e now s st :
  let st' := (notify_item e now s st).1 in
  user_ids st' = user_ids st /\ user_ids_file st' = user_ids_file st
  /\ admins st' = admins st.
Proof.
  unfold notify_item. destruct (it_mute s); [done|].
  pose proof (notify_threshold_recipients e now s THREE_HOUR st) as (A1 & B1 & C1).
  destruct (notify_threshold e now s THREE_HOUR st) as [st1 o1].
  pose proof (notify_threshold_recipients e now s ONE_DAY st1) as (A2 & B2 & C2).
  destruct (notify_threshold e now s ONE_DAY st1) as [st2 o2].
  pose proof (notify_threshold_recipients e now s ONE_WEEK st2) as (A3 & B3 & C3).
  destruct (notify_threshold e now s ONE_WEEK st2) as [st3 o3].
  simpl in *. by rewrite A3, A2, A1, B3, B2, B1, C3, C2, C1.
Qed.

Lemma notify_items_recipients e now items : forall st,
  let st' := (notify_items e now items st).1 in
  user_ids st' = user_ids st /\ user_ids_file st' = user_ids_file st
  /\ admins st' = admins st.
Proof.
  induction items as [|s items IH]; intros st; simpl; [done|].
  pose proof (notify_item_recipients e now s st) as (A1 & B1 & C1).
  destruct (notify_item e now s st) as [st1 o1].
  pose proof (IH st1) as (A2 & B2 & C2).
  destruct (notify_items e now items st1) as [st2 o2].
  simpl in *. by rewrite A2, A1, B2, B1, C2, C1.
Qed.

(** C9. A polling pass never changes the recipient set, neither the one in
    memory nor the one in the file, whatever the sends do; it does not
    change the administrators either. *)
Theorem C9_pass_keeps_recipients (e : env) (now : datetime) (st : state) :
  user_ids (notify_schedules e now st).1 = user_ids st
  /\ user_ids_file (notify_schedules e now st).1 = user_ids_file st
  /\ admins (notify_schedules e now st).1 = admins st.
Proof.
  unfold notify_schedules. case_bool_decide; [done|].
  destruct (_sorted_upcoming_items e); [|done]. apply notify_items_recipients.
Qed.

(** ** The broadcast *)

Lemma raises_false r : raises r = false <-> r = Delivered.
Proof. destruct r; simpl; split; done. Qed.

Lemma elem_of_failed e m (X : gset Z) c :
  c ∈ List.filter (fun c => raises (send_message e c m)) (elements X) <->
  c ∈ X /\ raises (send_message e c m) = true.
Proof. by rewrite list_elem_of_In, List.filter_In, <- list_elem_of_In, elem_of_elements. Qed.

Lemma NoDup_List_filter {A} (f : A -> bool) (l : list A) :
  NoDup l -> NoDup (List.filter f l).
Proof.
  induction 1 as [|x l Hx Hl IH]; simpl; [constructor|].
  destruct (f x); [|done]. constructor; [|done].
  rewrite list_elem_of_In, List.filter_In, <- list_elem_of_In. tauto.
Qed.

Lemma notice_runs e chat text st :
  is_admin st chat = true ->
  py_strip text <> [] -> py_strip text <> lit "/noti" -> user_ids st <> ∅ ->
  notice e chat text st =
  let m := NoticeText (py_strip (py_slice_from 5 text)) in
  let failed :=
    List.filter (fun c => raises (send_message e c m)) (elements (user_ids st)) in
  let uids := user_ids st ∖ list_to_set failed in
  (set_user_ids uids
     match failed with [] => user_ids_file st | _ => uids end st,
   fan_out e (elements (user_ids st)) m
   ++ [ReplyText chat
         match failed with
         | [] => NoticeAll (size uids)
         | _ => NoticePartial (length failed) (size uids)
         end]).
Proof.
  intros Hadm H1 H2 Hu. unfold notice. rewrite Hadm. simpl negb. cbv iota.
  rewrite !bool_decide_eq_false_2 by done. simpl orb. cbv iota.
  rewrite notice_loop_spec. reflexivity.
Qed.

(** C7. The broadcast of an administrator to a non-empty recipient set
    attempts the delivery to every recipient of the set, in the order of the
    snapshot, whatever the earlier attempts did.  Afterwards the recipient
    set holds exactly the recipients whose delivery succeeded; a recipient
    whose delivery failed permanently is in neither the set nor the file;
    and the report carries the number of failures and the number of
    recipients left, which add up to the number of recipients before. *)
Theorem C7_broadcast_survives_failures (e : env) (chat : Z) (text : pystr)
    (st : state) :
  is_admin st chat = true ->
  py_strip text <> [] -> py_strip text <> lit "/noti" -> user_ids st <> ∅ ->
  let m := NoticeText (py_strip (py_slice_from 5 text)) in
  let failed :=
    List.filter (fun c => raises (send_message e c m)) (elements (user_ids st)) in
  let st' := (notice e chat text st).1 in
  (notice e chat text st).2 =
    fan_out e (elements (user_ids st)) m
    ++ [ReplyText chat
          match failed with
          | [] => NoticeAll (size (user_ids st'))
          | _ => NoticePartial (length failed) (size (user_ids st'))
          end]
  /\ (forall c, c ∈ user_ids st' <->
                c ∈ user_ids st /\ send_message e c m = Delivered)
  /\ (forall c, c ∈ user_ids st -> send_message e c m = PermanentFailure ->
                (c ∉ user_ids st') /\ (c ∉ user_ids_file st'))
  /\ (length failed + size (user_ids st') = size (user_ids st))%nat.
Proof.
  intros Hadm H1 H2 Hu m failed st'.
  unfold st'. rewrite (notice_runs e chat text st Hadm H1 H2 Hu).
  cbn zeta. fold m. fold failed. simpl.
  assert (Hin : forall c, c ∈ user_ids st ∖ list_to_set failed <->
                          c ∈ user_ids st /\ send_message e c m = Delivered).
  { intros c. rewrite elem_of_difference, elem_of_list_to_set.
    unfold failed. rewrite elem_of_failed, <- raises_false.
    destruct (raises (send_message e c m)); naive_solver. }
  split; [done|]. split; [done|]. split.
  - intros c Hc Hperm.
    assert (Hf : c ∈ failed).
    { unfold failed. rewrite elem_of_failed. by rewrite Hperm. }
    assert (Hnot : c ∉ user_ids st ∖ list_to_set failed).
    { rewrite Hin. rewrite Hperm. naive_solver. }
    split; [done|]. destruct failed; [by apply elem_of_nil in Hf|done].
  - assert (Hsub : list_to_set (C := gset Z) failed ⊆ user_ids st).
    { intros c. rewrite elem_of_list_to_set. unfold failed.
      rewrite elem_of_failed. naive_solver. }
    assert (Hnd : NoDup failed).
    { unfold failed. apply NoDup_List_filter, NoDup_elements. }
    pose proof (subseteq_size _ _ Hsub) as Hle.
    rewrite size_difference by done.
    rewrite size_list_to_set in * by done. lia.
Qed.

(** ** Muting and unmuting *)

Lemma private_of_patched ev mute :
  private_of (apply_patch (set_mute_on_body ev mute) ev)
  = <[lit "mute" := if mute then lit "v" else []]> (private_of ev)
    ∪ private_of ev.
Proof. reflexivity. Qed.

Lemma private_of_patched_lookup ev mute k :
  private_of (apply_patch (set_mute_on_body ev mute) ev) !! k =
  if decide (k = lit "mute") then Some (if mute then lit "v" else [])
  else private_of ev !! k.
Proof.
  rewrite private_of_patched, lookup_union. case_decide as Hk.
  - subst k. rewrite lookup_insert_eq. by destruct (private_of ev !! _).
  - rewrite lookup_insert_ne by done. by destruct (private_of ev !! k).
Qed.

Lemma is_muted_patched ev mute :
  is_muted (apply_patch (set_mute_on_body ev mute) ev) = mute.
Proof.
  unfold is_muted. cbv zeta.
  rewrite private_of_patched_lookup, decide_True by done.
  by destruct mute.
Qed.

Lemma mute_command_effects mute e chat arg st :
  Forall (mute_effect_ok mute e) (mute_command mute e chat arg st).2.
Proof.
  unfold mute_command.
  repeat case_match; simpl; repeat (apply Forall_cons; split);
    try apply Forall_nil; simpl; eauto.
Qed.

(** C8. The body the mute and unmute commands send carries the private
    properties only: no summary, no start, no end; its private map is the
    event's own with the entry [mute] set, every other entry as it was.
    Patched into the event (the calendar merging what the body provides), it
    leaves the id, the summary, the start, the end, the shared properties
    and every other private entry of the event unchanged, and makes
    [is_muted] answer the flag that was asked for.  The commands themselves
    change nothing in the state of the bot and send the calendar nothing but
    that one patch. *)
Theorem C8_mute_changes_only_mute (ev : event) (mute : bool) :
  let b := set_mute_on_body ev mute in
  let ev' := apply_patch b ev in
  (b_summary b = None /\ b_start b = None /\ b_end b = None)
  /\ (exists priv,
        b_extendedProperties b
          = Some {| ep_private := Some priv; ep_shared := None |}
        /\ priv !! lit "mute" = Some (if mute then lit "v" else [])
        /\ forall k, k <> lit "mute" -> priv !! k = private_of ev !! k)
  /\ (ev_id ev' = ev_id ev /\ ev_summary ev' = ev_summary ev
      /\ ev_start ev' = ev_start ev /\ ev_end ev' = ev_end ev)
  /\ (forall k, k <> lit "mute" -> private_of ev' !! k = private_of ev !! k)
  /\ (ev_extendedProperties ev' ≫= ep_shared)
     = (ev_extendedProperties ev ≫= ep_shared)
  /\ is_muted ev' = mute
  /\ (forall e chat arg st,
        (mute_command mute e chat arg st).1 = st
        /\ Forall (mute_effect_ok mute e) (mute_command mute e chat arg st).2).
Proof.
  intros b ev'. split; [done|]. split.
  { eexists. split; [reflexivity|]. split.
    - by rewrite lookup_insert_eq.
    - intros k Hk. by rewrite lookup_insert_ne. }
  split; [by unfold ev', b|]. split.
  { intros k Hk. unfold ev', b.
    by rewrite private_of_patched_lookup, decide_False. }
  split; [done|]. split; [apply is_muted_patched|].
  intros e chat arg st. split.
  - apply mute_command_state.
  - apply mute_command_effects.
Qed.

(* ===================================================================== *)
(** * The properties at work on the scenarios *)
(* ===================================================================== *)

Lemma C1_time_windows_witness :
  in_window THREE_HOUR
    (dt_sub (mk_datetime 2024 12 25 12 0 0 0) Scenario.now0) = true
  /\ in_window ONE_DAY
       (dt_sub (mk_datetime 2024 12 24 12 0 0 0) Scenario.now0) = false
  /\ exists eff,
       eff ∈ (notify_item Scenario.everyone_hears Scenario.now0
                Scenario.meeting_item Scenario.st0).2
       /\ is_reminder THREE_HOUR eff = true.
Proof.
  split; [|split].
  - apply (C1_time_windows (mk_datetime 2024 12 25 12 0 0 0) Scenario.now0).
    vm_compute. split; [reflexivity|discriminate].
  - apply (C1_time_windows (mk_datetime 2024 12 24 12 0 0 0) Scenario.now0).
    vm_compute. discriminate.
  - apply (C1_time_windows (mk_datetime 2024 12 25 12 0 0 0) Scenario.now0).
    + by_compute.
    + by_compute.
    + vm_compute. reflexivity.
Defined.

Lemma C2_fired_once_ledgers_independent_witness :
  (Scenario.uid_meeting_hour
     ∈ ledger THREE_HOUR
         (run [(Scenario.everyone_hears, Tick Scenario.now1);
               (Scenario.everyone_hears, CmdStart 9);
               (Scenario.everyone_hears, Tick Scenario.now1)]
            Scenario.st_fired).1
   /\ forall eff,
        eff ∈ (run [(Scenario.everyone_hears, Tick Scenario.now1);
                    (Scenario.everyone_hears, CmdStart 9);
                    (Scenario.everyone_hears, Tick Scenario.now1)]
                 Scenario.st_fired).2 ->
        reminder_key eff <> Some (THREE_HOUR, Scenario.uid_meeting_hour))
  /\ List.filter (is_reminder ONE_DAY)
       (notify_schedules Scenario.everyone_hears Scenario.now0
          (set_ledger THREE_HOUR {[Scenario.uid_meeting_hour]} Scenario.st0)).2
     = List.filter (is_reminder ONE_DAY)
         (notify_schedules Scenario.everyone_hears Scenario.now0
            Scenario.st0).2.
Proof.
  split.
  - apply (proj1 C2_fired_once_ledgers_independent). by_compute.
  - apply (proj2 C2_fired_once_ledgers_independent). discriminate.
Defined.


Lemma C4_muted_event_never_dispatched_witness :
  notify_item Scenario.everyone_hears Scenario.now0 Scenario.quiet_item
    Scenario.st0 = (Scenario.st0, [])
  /\ in_window THREE_HOUR
       (dt_sub (it_dt Scenario.quiet_item) Scenario.now0) = true.
Proof.
  split; [|vm_compute; reflexivity].
  apply (proj1 (proj2 (C4_muted_event_never_dispatched
                         Scenario.everyone_hears Scenario.now0 Scenario.st0))
           Scenario.quiet).
  - vm_compute. reflexivity.
  - vm_compute. reflexivity.
Defined.


Lemma C6_second_destructive_rejected_witness :
  let st1 := (delall_confirm_prompt 7 Scenario.st0).1 in
  delhistory_confirm_prompt 7 st1 = (st1, [ReplyText 7 ConfirmBusy])
  /\ confirm_action st1 !! 7 = Some delall.
Proof.
  intros st1. split; [|vm_compute; reflexivity].
  apply (C6_second_destructive_rejected st1 7 delall).
  exists delall. vm_compute. reflexivity.
Defined.

Lemma C7_broadcast_survives_failures_witness :
  let e := Scenario.world Scenario.calendar Scenario.one_blocked in
  let r := notice e 7 (lit "/noti strike at noon") Scenario.st0 in
  r.2 = fan_out e [3; 2; 1] (NoticeText (lit "strike at noon"))
        ++ [ReplyText 7 (NoticePartial 1 2)]
  /\ ((1 ∉ user_ids r.1) /\ (1 ∉ user_ids_file r.1))
  /\ (2 ∈ user_ids r.1 /\ 3 ∈ user_ids r.1).
Proof.
  intros e r.
  destruct (C7_broadcast_survives_failures e 7 (lit "/noti strike at noon")
              Scenario.st0) as (Hout & Hin & Hperm & Hcount).
  - reflexivity.
  - by_compute.
  - by_compute.
  - by_compute.
  - split; [|split].
    + unfold r. rewrite Hout. vm_compute. reflexivity.
    + apply Hperm; [by_compute|reflexivity].
    + split; apply Hin; (split; [by_compute|reflexivity]).
Defined.

Lemma C8_mute_changes_only_mute_witness :
  let ev' := apply_patch (set_mute_on_body Scenario.board true) Scenario.board in
  private_of ev' !! lit "color" = Some (lit "red")
  /\ ev_start ev' = ev_start Scenario.board
  /\ is_muted Scenario.board = false
  /\ is_muted ev' = true.
Proof.
  intros ev'.
  destruct (C8_mute_changes_only_mute Scenario.board true)
    as (_ & _ & (_ & _ & Hstart & _) & Hpriv & _ & Hmuted & _).
  split; [|split; [exact Hstart|split; [vm_compute; reflexivity|exact Hmuted]]].
  unfold ev'. rewrite Hpriv.
  - vm_compute. reflexivity.
  - discriminate.
Defined.

Lemma C10_confirm_without_pending_witness :
  ok_handler Scenario.everyone_hears Scenario.now0 7 Scenario.st0
    = (Returned, Scenario.st0, [ReplyText 7 NothingToConfirm])
  /\ (let st1 := (delall_confirm_prompt 7 Scenario.st0).1 in
      let st2 := (confirm_timeout Scenario.everyone_hears 0 st1).1 in
      ok_handler Scenario.everyone_hears Scenario.now0 7 st2
        = (Returned, st2, [ReplyText 7 NothingToConfirm])).
Proof.
  split.
  - apply (C10_confirm_without_pending Scenario.everyone_hears Scenario.now0
             7 Scenario.st0).
    + apply wf_initial.
    + vm_compute. reflexivity.
  - intros st1 st2.
    apply (proj2 (C10_confirm_without_pending Scenario.everyone_hears
                    Scenario.now0 7 st1
                    (wf_confirm_prompt delall 7 Scenario.st0
                       (wf_initial _ _)))).
    vm_compute. reflexivity.
Defined.

(* ===================================================================== *)
(** * Further properties of the code *)
(* ===================================================================== *)

(** ** Windows and keys *)

Lemma in_window_unique th1 th2 diff :
  in_window th1 diff = true -> in_window th2 diff = true -> th1 = th2.
Proof.
  rewrite !in_window_spec.
  destruct th1, th2; unfold window_lo, window_hi, timedelta; intros; try done; lia.
Qed.

(** X1. The three windows do not overlap: a difference [start - now] is in
    the window of at most one threshold, so the reminders one event gives
    rise to in one pass all carry the same threshold. *)
Theorem X1_one_threshold_at_a_time (e : env) (now : datetime) (s : item)
    (st : state) :
  (forall th1 th2,
     in_window th1 (dt_sub (it_dt s) now) = true ->
     in_window th2 (dt_sub (it_dt s) now) = true -> th1 = th2)
  /\ (forall eff1 eff2 th1 th2,
        eff1 ∈ (notify_item e now s st).2 ->
        eff2 ∈ (notify_item e now s st).2 ->
        is_reminder th1 eff1 = true -> is_reminder th2 eff2 = true ->
        th1 = th2).
Proof.
  split; [intros th1 th2; apply in_window_unique|].
  assert (Hw : forall eff th,
    eff ∈ (notify_item e now s st).2 -> is_reminder th eff = true ->
    in_window th (dt_sub (it_dt s) now) = true).
  { intros eff th. unfold notify_item. destruct (it_mute s);
      [by intros ?%elem_of_nil|].
    destruct (notify_threshold e now s THREE_HOUR st) as [st1 o1] eqn:H1.
    destruct (notify_threshold e now s ONE_DAY st1) as [st2 o2] eqn:H2.
    destruct (notify_threshold e now s ONE_WEEK st2) as [st3 o3] eqn:H3.
    simpl. rewrite !elem_of_app. intros [Hin|[Hin|Hin]] Hr.
    - replace o1 with (notify_threshold e now s THREE_HOUR st).2 in Hin
        by by rewrite H1.
      by destruct (notify_threshold_reminder _ _ _ _ _ _ _ Hin Hr) as (-> & ? & _).
    - replace o2 with (notify_threshold e now s ONE_DAY st1).2 in Hin
        by by rewrite H2.
      by destruct (notify_threshold_reminder _ _ _ _ _ _ _ Hin Hr) as (-> & ? & _).
    - replace o3 with (notify_threshold e now s ONE_WEEK st2).2 in Hin
        by by rewrite H3.
      by destruct (notify_threshold_reminder _ _ _ _ _ _ _ Hin Hr) as (-> & ? & _). }
  intros eff1 eff2 th1 th2 Hin1 Hin2 Hr1 Hr2.
  eapply in_window_unique; eauto.
Qed.

Lemma X1_one_threshold_at_a_time_witness :
  in_window THREE_HOUR
    (dt_sub (it_dt Scenario.meeting_item) Scenario.now0) = true
  /\ in_window ONE_DAY
       (dt_sub (it_dt Scenario.meeting_item) Scenario.now0) = false.
Proof.
  split; [vm_compute; reflexivity|].
  destruct (in_window ONE_DAY
              (dt_sub (it_dt Scenario.meeting_item) Scenario.now0)) eqn:Hd;
    [|reflexivity].
  discriminate
    (proj1 (X1_one_threshold_at_a_time Scenario.everyone_hears
              Scenario.now0 Scenario.meeting_item Scenario.st0)
       ONE_DAY THREE_HOUR Hd eq_refl).
Defined.

Lemma length_strftime t : length (strftime_yymmdd_HHMM t) = 11%nat.
Proof. reflexivity. Qed.

(** X2. The de-duplication key is the minute-precision time string, the
    summary and the threshold tag, and nothing else: two keys of a threshold
    are equal exactly when the two events print the same
    [%y%m%d %H%M] string and have the same summary.  Seconds, microseconds
    and the event id play no part. *)
Theorem X2_key_is_minute_and_summary (th : threshold) (t t' : datetime)
    (d d' : pystr) :
  uid th t d = uid th t' d' <->
  strftime_yymmdd_HHMM t = strftime_yymmdd_HHMM t' /\ d = d'.
Proof.
  unfold uid. split.
  - intros Heq. apply app_inj_1 in Heq as [H1 Heq];
      [|by rewrite !length_strftime].
    split; [done|]. apply app_inv_head in Heq. by apply app_inv_tail in Heq.
  - by intros [-> ->].
Qed.


(** ** At most one reminder *)












(** ** The sorted listing *)

Lemma insert_by_dt_perm x l : insert_by_dt x l ≡ₚ x :: l.
Proof.
  induction l as [|y l IH]; simpl; [done|].
  destruct (dt_ltb (it_dt x) (it_dt y)); [done|].
  rewrite IH. apply Permutation_swap.
Qed.

Lemma foldl_insert_perm l : forall acc,
  foldl (fun acc x => insert_by_dt x acc) acc l ≡ₚ acc ++ l.
Proof.
  induction l as [|x l IH]; intros acc; simpl; [by rewrite app_nil_r|].
  rewrite IH, insert_by_dt_perm. simpl. apply Permutation_middle.
Qed.

Lemma foldl_insert_sorted l : forall acc,
  StronglySorted dt_le acc ->
  StronglySorted dt_le (foldl (fun acc x => insert_by_dt x acc) acc l).
Proof.
  induction l as [|x l IH]; intros acc Hs; simpl; [done|].
  by apply IH, insert_by_dt_sorted.
Qed.

(** Entries that all start at the same instant are left in the order they
    come in: each goes behind the ones before it. *)
Lemma insert_by_dt_same x l :
  Forall (fun y => to_micros (it_dt y) = to_micros (it_dt x)) l ->
  insert_by_dt x l = l ++ [x].
Proof.
  induction 1 as [|y l Hy _ IH]; simpl; [done|].
  unfold dt_ltb. rewrite Hy, Z.ltb_irrefl. by rewrite IH.
Qed.

Lemma foldl_insert_same key l : forall acc,
  Forall (fun y => to_micros (it_dt y) = key) acc ->
  Forall (fun y => to_micros (it_dt y) = key) l ->
  foldl (fun acc x => insert_by_dt x acc) acc l = acc ++ l.
Proof.
  induction l as [|x l IH]; intros acc Hacc Hl; simpl; [by rewrite app_nil_r|].
  apply Forall_cons in Hl as [Hx Hl].
  rewrite insert_by_dt_same.
  - rewrite IH; [by rewrite <- app_assoc| |done].
    apply Forall_app. split; [done|by constructor].
  - eapply Forall_impl; [exact Hacc|]. simpl. intros y ->. done.
Qed.

(** X5. [_sorted_upcoming_items()] returns the listed events that have a
    start, each once, in the order of their start instants; events that
    start at the same instant keep the order of the listing (the sort is
    stable). *)
Theorem X5_sorted_upcoming_items (events : list event) :
  StronglySorted dt_le (items_of_events events)
  /\ items_of_events events ≡ₚ omap item_of_event events
  /\ forall key,
       List.filter (fun s => to_micros (it_dt s) =? key)
         (items_of_events events)
       = List.filter (fun s => to_micros (it_dt s) =? key)
           (omap item_of_event events).
Proof.
  unfold items_of_events, sort_by_dt. split; [|split].
  - apply foldl_insert_sorted. constructor.
  - by rewrite foldl_insert_perm.
  - intros key. rewrite foldl_insert_filter by constructor. simpl.
    apply (foldl_insert_same key); [constructor|].
    apply Forall_forall. intros s Hs%list_elem_of_In%List.filter_In.
    destruct Hs as [_ Hs]. by apply Z.eqb_eq.
Qed.

(** ** The mute flag *)

Lemma py_lstrip_space pre s : all_space pre -> py_lstrip (pre ++ s) = py_lstrip s.
Proof. induction 1 as [|c pre Hc _ IH]; simpl; [done|]. by rewrite Hc. Qed.

Lemma py_lstrip_all_space s : all_space s -> py_lstrip s = [].
Proof. intros H. rewrite <- (app_nil_r s). by rewrite py_lstrip_space. Qed.

Lemma py_lstrip_app s post :
  py_lstrip s <> [] -> py_lstrip (s ++ post) = py_lstrip s ++ post.
Proof.
  induction s as [|c s IH]; simpl; [done|].
  destruct (py_isspace c); [exact IH|done].
Qed.

Lemma py_rstrip_space s post :
  all_space post -> py_rstrip (s ++ post) = py_rstrip s.
Proof.
  intros Hp. unfold py_rstrip. rewrite rev_app_distr.
  rewrite py_lstrip_space; [done|]. unfold all_space.
  apply Forall_forall. intros c Hc%list_elem_of_In%in_rev%list_elem_of_In.
  by apply (proj1 (Forall_forall _ _) Hp).
Qed.

Lemma py_strip_padding pre s post :
  all_space pre -> all_space post ->
  py_strip (pre ++ s ++ post) = py_strip s.
Proof.
  intros Hpre Hpost. unfold py_strip. rewrite py_lstrip_space by done.
  destruct (py_lstrip s) as [|c l] eqn:Hs.
  - assert (Hall : all_space s).
    { clear -Hs. induction s as [|c s IH]; [constructor|].
      simpl in Hs. destruct (py_isspace c) eqn:Hc; [|done].
      constructor; [done|by apply IH]. }
    rewrite py_lstrip_all_space; [done|]. by apply Forall_app.
  - rewrite py_lstrip_app by by rewrite Hs. rewrite Hs.
    by apply py_rstrip_space.
Qed.

(** X6. [is_muted] fails open and is tolerant of padding: an event with no
    [extendedProperties], no [private] map or no [mute] entry is not muted,
    and two events whose [mute] values differ by leading and trailing
    whitespace only are muted alike, whatever else they carry. *)
Theorem X6_is_muted_fail_open_and_padding :
  (forall ev, private_of ev !! lit "mute" = None -> is_muted ev = false)
  /\ (forall ev,
        ev_extendedProperties ev = None
        \/ ev_extendedProperties ev ≫= ep_private = None ->
        is_muted ev = false)
  /\ (forall ev1 ev2 pre post,
        all_space pre -> all_space post ->
        mute_value ev1 = pre ++ mute_value ev2 ++ post ->
        is_muted ev1 = is_muted ev2).
Proof.
  split; [|split].
  - intros ev H. unfold is_muted. cbv zeta. by rewrite H.
  - intros ev H. unfold is_muted, private_of. cbv zeta.
    destruct H as [->| ->]; done.
  - intros ev1 ev2 pre post Hpre Hpost Hv. unfold is_muted. cbv zeta.
    fold (mute_value ev1). fold (mute_value ev2).
    by rewrite Hv, py_strip_padding.
Qed.

Lemma private_of_patched_eq ev mute :
  private_of (apply_patch (set_mute_on_body ev mute) ev)
  = <[lit "mute" := if mute then lit "v" else []]> (private_of ev).
Proof.
  apply map_eq. intros k. rewrite private_of_patched_lookup.
  case_decide as Hk.
  - subst k. by rewrite lookup_insert_eq.
  - by rewrite lookup_insert_ne.
Qed.

(** X7. Mute and unmute compose: after two of them the event is muted as
    the last one asked, every private entry other than [mute] is as it was
    at the start, and the body of the second request is the body the same
    command would have sent for the event as it was before the first; in
    particular muting twice sends the same body twice. *)
Theorem X7_mute_commands_compose (ev : event) (m1 m2 : bool) :
  let ev1 := apply_patch (set_mute_on_body ev m1) ev in
  let ev2 := apply_patch (set_mute_on_body ev1 m2) ev1 in
  is_muted ev2 = m2
  /\ private_of ev2 = <[lit "mute" := if m2 then lit "v" else []]> (private_of ev)
  /\ set_mute_on_body ev1 m2 = set_mute_on_body ev m2
  /\ (ev_id ev2 = ev_id ev /\ ev_summary ev2 = ev_summary ev
      /\ ev_start ev2 = ev_start ev /\ ev_end ev2 = ev_end ev).
Proof.
  intros ev1 ev2. split; [apply is_muted_patched|].
  assert (Hbody : <[lit "mute" := if m2 then lit "v" else []]> (private_of ev1)
                  = <[lit "mute" := if m2 then lit "v" else []]> (private_of ev)).
  { unfold ev1. rewrite private_of_patched_eq. apply insert_insert_eq. }
  split; [|split; [|done]].
  - unfold ev2. by rewrite private_of_patched_eq.
  - unfold set_mute_on_body. by rewrite Hbody.
Qed.

(** X8. The mute commands send a patch only for a number inside the list:
    whenever [mute_schedule] or [unmute_schedule] sends a patch, the chat is
    an administrator's, the argument is a number [n] with
    [1 <= n <= len(items)], and the patched event is entry [n] of the
    sorted listing.  With a number outside, the answer is the bad-index
    reply and nothing is sent to the calendar. *)
Theorem X8_mute_only_inside_the_list (mute : bool) (e : env) (chat : Z)
    (arg : option Z) (st : state) :
  (forall i b ok,
     PatchEvent i b ok ∈ (mute_command mute e chat arg st).2 ->
     is_admin st chat = true
     /\ exists n items target,
          arg = Some n /\ _sorted_upcoming_items e = Some items
          /\ 1 <= n <= Z.of_nat (length items)
          /\ items !! Z.to_nat (n - 1) = Some target /\ i = it_id target)
  /\ (forall n items,
        is_admin st chat = true -> arg = Some n ->
        _sorted_upcoming_items e = Some items ->
        n < 1 \/ Z.of_nat (length items) < n ->
        mute_command mute e chat arg st = (st, [ReplyText chat BadIndex])).
Proof.
  split.
  - intros i b ok. unfold mute_command.
    destruct (is_admin st chat); simpl;
      [|by intros [=]%list_elem_of_singleton].
    destruct arg as [n|]; [|by intros [=]%list_elem_of_singleton].
    destruct (_sorted_upcoming_items e) as [items|];
      [|by intros [=]%list_elem_of_singleton].
    destruct ((0 <=? n - 1) && (n - 1 <? Z.of_nat (length items))) eqn:Hb;
      [|by intros [=]%list_elem_of_singleton].
    apply andb_true_iff in Hb as [H0%Z.leb_le H1%Z.ltb_lt].
    destruct (items !! Z.to_nat (n - 1)) as [target|] eqn:Ht;
      [|by intros [=]%list_elem_of_singleton].
    destruct (events_get e (it_id target));
      [|by intros [=]%list_elem_of_singleton].
    intros [[= -> -> ->]|[=]%list_elem_of_singleton]%elem_of_cons.
    split; [done|]. exists n, items, target. repeat split; try done; lia.
  - intros n items Hadm -> Hitems Hout. unfold mute_command.
    rewrite Hadm, Hitems. simpl.
    destruct ((0 <=? n - 1) && (n - 1 <? Z.of_nat (length items))) eqn:Hb;
      [|done].
    apply andb_true_iff in Hb as [H0%Z.leb_le H1%Z.ltb_lt]. lia.
Qed.

(** ** Registration and broadcast *)

(** X9. [start] registers a chat once: afterwards the chat is a recipient
    and the recipients are the former ones and the chat; a chat that is new
    is saved with the others to the file, a chat that was there changes
    nothing; a second [start] changes nothing. *)
Theorem X9_start_registers_once (chat : Z) (st : state) :
  let st' := (start chat st).1 in
  user_ids st' = {[chat]} ∪ user_ids st
  /\ (chat ∉ user_ids st -> user_ids_file st' = user_ids st')
  /\ (chat ∈ user_ids st -> st' = st)
  /\ (start chat st').1 = st'.
Proof.
  intros st'. unfold st', start. simpl.
  case_bool_decide as Hin; simpl.
  - rewrite bool_decide_eq_true_2 by done.
    split; [set_solver|]. done.
  - rewrite bool_decide_eq_true_2 by set_solver. done.
Qed.

Lemma List_filter_nil {A} (f : A -> bool) (l : list A) :
  (forall x, x ∈ l -> f x = false) -> List.filter f l = [].
Proof.
  induction l as [|x l IH]; intros H; simpl; [done|].
  rewrite (H x) by left. apply IH. intros y Hy. apply H. by right.
Qed.

Lemma set_user_ids_id st : set_user_ids (user_ids st) (user_ids_file st) st = st.
Proof. by destruct st. Qed.

(** X10. [notice] never adds a recipient and touches nothing but the
    recipients; it sends nothing at all from a chat that is not an
    administrator's or for a text that is blank or the bare command; and
    when every delivery succeeds it leaves the whole state as it was. *)
Theorem X10_notice_only_removes (e : env) (chat : Z) (text : pystr)
    (st : state) :
  let res := notice e chat text st in
  user_ids res.1 ⊆ user_ids st
  /\ (admins res.1 = admins st
      /\ forall th, ledger th res.1 = ledger th st)
  /\ (is_admin st chat = false \/ py_strip text = []
      \/ py_strip text = lit "/noti" ->
      res.1 = st /\ exists r, res.2 = [ReplyText chat r])
  /\ ((forall c, c ∈ user_ids st ->
         send_message e c (NoticeText (py_strip (py_slice_from 5 text)))
         = Delivered) ->
      res.1 = st).
Proof.
  intros res. unfold res, notice.
  destruct (is_admin st chat) eqn:Hadm; cbn [negb];
    [|by repeat split; eauto].
  destruct (bool_decide (py_strip text = [])
            || bool_decide (py_strip text = lit "/noti")) eqn:Hb;
    [by repeat split; eauto|].
  apply orb_false_iff in Hb as [H1%bool_decide_eq_false H2%bool_decide_eq_false].
  case_bool_decide as Hu; [repeat split; try done; naive_solver|].
  rewrite notice_loop_spec. cbn zeta. cbn [fst snd].
  split; [set_solver|]. split; [split; [done|by intros []]|].
  split; [naive_solver|].
  intros Hall. rewrite List_filter_nil.
  - simpl. rewrite difference_empty_L. apply set_user_ids_id.
  - intros c Hc%elem_of_elements. by rewrite Hall.
Qed.

(** ** Confirmations are used up *)




(** X11. A confirmation is used up by [/ok], whatever comes of it.  In a
    state the process can be in, after [ok_handler] (whether it returned or
    an exception left it) the chat has no pending action and no recorded
    task, and another [/ok] finds nothing to confirm; if the listing of the
    pending action raises, no delete is issued and no reply is sent, yet the
    confirmation is gone. *)
Theorem X11_confirmation_is_single_use (e : env) (now : datetime) (chat : Z)
    (st : state) :
  wf st ->
  let st' := (ok_handler e now chat st).1.2 in
  (confirm_action st' !! chat = None /\ confirm_task st' !! chat = None)
  /\ (forall e' now',
        ok_handler e' now' chat st'
        = (Returned, st', [ReplyText chat NothingToConfirm]))
  /\ (forall a,
        confirm_action st !! chat = Some a -> bulk_targets a e now = None ->
        ok_handler e now chat st = (Raised, st', [])).
Proof.
  intros Hwf st'.
  assert (Ha : confirm_action st' !! chat = None).
  { unfold st'. rewrite ok_handler_state. simpl. apply lookup_delete_eq. }
  assert (Hwf' : wf st') by by apply wf_ok_handler.
  split; [split; [done|by apply wf_no_action]|]. split.
  - intros e' now'. by apply ok_handler_idle.
  - intros a Hact Hnone. unfold st'. rewrite ok_handler_state.
    unfold ok_handler. rewrite Hact. destruct a; simpl in Hnone.
    + by destruct (_sorted_upcoming_items e).
    + by destruct (list_past e 365).
Qed.





(** X13. In every state the process can reach, the timeout tasks and the
    confirmation entries fit: a chat has at most one task asleep; a chat has
    a pending action exactly when it has a recorded task, and that task is
    asleep for that chat; and every task asleep belongs to a pending
    action. *)
Theorem X13_one_timer_per_chat (st : state) :
  reachable st ->
  (forall t1 t2 c,
     tasks st !! t1 = Some (Sleeping c) ->
     tasks st !! t2 = Some (Sleeping c) -> t1 = t2)
  /\ (forall c,
        is_Some (confirm_action st !! c) <->
        exists t, confirm_task st !! c = Some t
                  /\ tasks st !! t = Some (Sleeping c))
  /\ (forall t c,
        tasks st !! t = Some (Sleeping c) -> is_Some (confirm_action st !! c)).
Proof.
  intros (users & adm & ins & ->).
  pose proof (wf_run ins _ (wf_initial users adm)) as [H1 H2 H3].
  split; [|split].
  - intros t1 t2 c Ha Hb. apply H1 in Ha, Hb. congruence.
  - intros c. rewrite H3. split.
    + intros [t Ht]. exists t. split; [done|by apply H2].
    + intros (t & Ht & _). by exists t.
  - intros t c Ht. apply H3. exists t. by apply H1.
Qed.

(** ** The further properties at work on the scenarios *)


Lemma X6_is_muted_fail_open_and_padding_witness :
  is_muted Scenario.meeting = false
  /\ is_muted Scenario.quiet = is_muted Scenario2.quiet_bare.
Proof.
  split.
  - apply (proj1 X6_is_muted_fail_open_and_padding). vm_compute. reflexivity.
  - apply (proj2 (proj2 X6_is_muted_fail_open_and_padding)
             Scenario.quiet Scenario2.quiet_bare (lit " ") (lit " ")).
    + repeat constructor.
    + repeat constructor.
    + vm_compute. reflexivity.
Defined.

Lemma X8_mute_only_inside_the_list_witness :
  mute_schedule Scenario.everyone_hears 7 (Some 5) Scenario.st0
    = (Scenario.st0, [ReplyText 7 BadIndex])
  /\ unmute_schedule Scenario.everyone_hears 7 (Some 0) Scenario.st0
     = (Scenario.st0, [ReplyText 7 BadIndex]).
Proof.
  split.
  - apply (proj2 (X8_mute_only_inside_the_list true Scenario.everyone_hears 7
                    (Some 5) Scenario.st0) 5
             (items_of_events Scenario.calendar)).
    + reflexivity.
    + reflexivity.
    + reflexivity.
    + right. vm_compute. reflexivity.
  - apply (proj2 (X8_mute_only_inside_the_list false Scenario.everyone_hears 7
                    (Some 0) Scenario.st0) 0
             (items_of_events Scenario.calendar)).
    + reflexivity.
    + reflexivity.
    + reflexivity.
    + left. lia.
Defined.

Lemma X9_start_registers_once_witness :
  user_ids_file (start 9 Scenario.st0).1 = user_ids (start 9 Scenario.st0).1
  /\ (start 2 Scenario.st0).1 = Scenario.st0.
Proof.
  split.
  - apply (proj1 (proj2 (X9_start_registers_once 9 Scenario.st0))).
    by_compute.
  - apply (proj1 (proj2 (proj2 (X9_start_registers_once 2 Scenario.st0)))).
    by_compute.
Defined.

Lemma X10_notice_only_removes_witness :
  (notice Scenario.everyone_hears 7 (lit "/noti strike at noon")
     Scenario.st0).1 = Scenario.st0
  /\ (notice Scenario.everyone_hears 2 (lit "/noti strike at noon")
        Scenario.st0).1 = Scenario.st0.
Proof.
  split.
  - apply (proj2 (proj2 (proj2 (X10_notice_only_removes
             Scenario.everyone_hears 7 (lit "/noti strike at noon")
             Scenario.st0)))).
    intros c _. reflexivity.
  - apply (proj1 (proj2 (proj2 (X10_notice_only_removes
             Scenario.everyone_hears 2 (lit "/noti strike at noon")
             Scenario.st0)))).
    left. reflexivity.
Defined.

Lemma X11_confirmation_is_single_use_witness :
  let st' := (ok_handler Scenario2.flaky Scenario.now0 7
                Scenario2.st_pending).1.2 in
  (ok_handler Scenario2.flaky Scenario.now0 7 Scenario2.st_pending).1.1
    = Raised
  /\ ok_handler Scenario.everyone_hears Scenario.now0 7 st'
     = (Returned, st', [ReplyText 7 NothingToConfirm]).
Proof.
  intros st'. split; [vm_compute; reflexivity|].
  apply (X11_confirmation_is_single_use Scenario2.flaky Scenario.now0 7
           Scenario2.st_pending).
  apply wf_confirm_prompt, wf_initial.
Defined.


Lemma X13_one_timer_per_chat_witness :
  is_Some (confirm_action Scenario2.st_pending !! 7)
  /\ tasks Scenario2.st_pending !! 0%nat = Some (Sleeping 7).
Proof.
  split; [|reflexivity].
  destruct (X13_one_timer_per_chat Scenario2.st_pending) as (_ & _ & Hact).
  - exists {[1; 2; 3]}, [Scenario.boss], [(Scenario.everyone_hears, CmdDelall 7)].
    reflexivity.
  - apply (Hact 0%nat 7). reflexivity.
Defined.

(** ** One hour later *)

Lemma month_day_table :
  forallb (fun k => month_day_inverts (Z.of_nat k) true
                    && month_day_inverts (Z.of_nat k) false)
    (seq 0 365) = true.
Proof. vm_compute. reflexivity. Qed.

Lemma month_day_spec n leap :
  0 <= n < 365 -> month_day_inverts n leap = true.
Proof.
  intros Hn.
  assert (Hin : In (Z.to_nat n) (seq 0 365)) by (apply in_seq; lia).
  apply (proj1 (forallb_forall _ _) month_day_table) in Hin.
  cbv beta in Hin. rewrite Z2Nat.id in Hin by lia.
  apply andb_true_iff in Hin as [H1 H2]. by destruct leap.
Qed.

Lemma is_leap_split a b c d :
  0 <= b < 4 -> 0 <= c < 25 -> 0 <= d < 4 ->
  is_leap (a * 400 + 1 + b * 100 + c * 4 + d)
  = (d =? 3) && (negb (c =? 24) || (b =? 3)).
Proof.
  intros Hb Hc Hd. unfold is_leap.
  set (y := a * 400 + 1 + b * 100 + c * 4 + d).
  assert (H4 : y mod 4 = (d + 1) mod 4).
  { unfold y. Z.to_euclidean_division_equations. lia. }
  assert (H100 : y mod 100 = (c * 4 + d + 1) mod 100).
  { unfold y. Z.to_euclidean_division_equations. lia. }
  assert (H400 : y mod 400 = (b * 100 + c * 4 + d + 1) mod 400).
  { unfold y. Z.to_euclidean_division_equations. lia. }
  rewrite H4, H100, H400.
  destruct (d =? 3) eqn:Ed; [apply Z.eqb_eq in Ed|apply Z.eqb_neq in Ed].
  - subst d. change ((3 + 1) mod 4) with 0. simpl.
    destruct (c =? 24) eqn:Ec; [apply Z.eqb_eq in Ec|apply Z.eqb_neq in Ec].
    + subst c. change ((24 * 4 + 3 + 1) mod 100) with 0. simpl.
      destruct (b =? 3) eqn:Eb; [apply Z.eqb_eq in Eb|apply Z.eqb_neq in Eb].
      * by subst b.
      * apply Z.eqb_neq. Z.to_euclidean_division_equations. lia.
    + simpl. rewrite orb_true_iff. left. apply negb_true_iff, Z.eqb_neq.
      Z.to_euclidean_division_equations. lia.
  - simpl. rewrite andb_false_iff. left. apply Z.eqb_neq.
    Z.to_euclidean_division_equations. lia.
Qed.

Lemma days_before_year_split a b c d :
  0 <= b < 4 -> 0 <= c < 25 -> 0 <= d < 4 ->
  days_before_year (a * 400 + 1 + b * 100 + c * 4 + d)
  = 146097 * a + 36524 * b + 1461 * c + 365 * d.
Proof.
  intros Hb Hc Hd. unfold days_before_year. cbv zeta.
  Z.to_euclidean_division_equations. lia.
Qed.

(** [date.fromordinal] undoes [toordinal]. *)
Lemma ymd2ord_ord2ymd n :
  let '(y, m, d) := ord2ymd n in
  ymd2ord y m d = n /\ 1 <= m <= 12 /\ 1 <= d <= days_in_month y m.
Proof.
  unfold ord2ymd. cbv zeta.
  set (a := (n - 1) / 146097). set (r := (n - 1) mod 146097).
  set (b := r / 36524). set (r2 := r mod 36524).
  set (c := r2 / 1461). set (r3 := r2 mod 1461).
  set (d := r3 / 365). set (r4 := r3 mod 365).
  assert (Hn : n - 1 = 146097 * a + r /\ 0 <= r < 146097).
  { unfold a, r. Z.to_euclidean_division_equations. lia. }
  assert (Hr : r = 36524 * b + r2 /\ 0 <= r2 < 36524 /\ 0 <= b <= 4).
  { unfold b, r2. Z.to_euclidean_division_equations. lia. }
  assert (Hr2 : r2 = 1461 * c + r3 /\ 0 <= r3 < 1461 /\ 0 <= c < 25).
  { unfold c, r3. Z.to_euclidean_division_equations. lia. }
  assert (Hr3 : r3 = 365 * d + r4 /\ 0 <= r4 < 365 /\ 0 <= d <= 4).
  { unfold d, r4. Z.to_euclidean_division_equations. lia. }
  clearbody a r b r2 c r3 d r4.
  assert (Hlastday : forall b' c' d',
    0 <= b' < 4 -> 0 <= c' < 25 -> 0 <= d' < 4 ->
    d' = 3 -> c' <> 24 \/ b' = 3 ->
    n = 146097 * a + 36524 * b' + 1461 * c' + 365 * d' + 366 ->
    a * 400 + 1 + b * 100 + c * 4 + d - 1
      = a * 400 + 1 + b' * 100 + c' * 4 + d' ->
    ymd2ord (a * 400 + 1 + b * 100 + c * 4 + d - 1) 12 31 = n
    /\ 1 <= 12 <= 12
    /\ 1 <= 31 <= days_in_month (a * 400 + 1 + b * 100 + c * 4 + d - 1) 12).
  { intros b' c' d' Hb' Hc' Hd' -> Hleap -> ->.
    unfold ymd2ord, days_before_month, days_in_month.
    rewrite is_leap_split, days_before_year_split by lia.
    change (Z.to_nat 12) with 12%nat. cbn [nth DAYS_IN_MONTH].
    change (2 <? 12) with true. change (12 =? 2) with false. cbn [andb].
    assert (Hl : (3 =? 3) && (negb (c' =? 24) || (b' =? 3)) = true).
    { apply andb_true_iff. split; [done|]. apply orb_true_iff.
      destruct Hleap as [?|?]; [left|right].
      - by apply negb_true_iff, Z.eqb_neq.
      - by apply Z.eqb_eq. }
    rewrite Hl. lia. }
  destruct ((d =? 4) || (b =? 4)) eqn:Hlast.
  - (* the last day of a leap year *)
    apply orb_true_iff in Hlast.
    destruct (decide (b = 4)) as [Hb|Hb].
    + apply (Hlastday 3 24 3); lia.
    + assert (d = 4) as Hd.
      { destruct Hlast as [?%Z.eqb_eq|?%Z.eqb_eq]; lia. }
      apply (Hlastday b c 3); lia.
  - apply orb_false_iff in Hlast as [Hd%Z.eqb_neq Hb%Z.eqb_neq].
    rewrite <- (is_leap_split a b c d) by lia.
    pose proof (month_day_spec r4
                  (is_leap (a * 400 + 1 + b * 100 + c * 4 + d))) as Hmd.
    unfold month_day_inverts in Hmd.
    destruct (month_day r4 (is_leap (a * 400 + 1 + b * 100 + c * 4 + d)))
      as [m day].
    specialize (Hmd ltac:(lia)).
    apply andb_true_iff in Hmd as [Hmd H5%Z.eqb_eq].
    apply andb_true_iff in Hmd as [Hmd H4%Z.leb_le].
    apply andb_true_iff in Hmd as [Hmd H3%Z.leb_le].
    apply andb_true_iff in Hmd as [H1%Z.leb_le H2%Z.leb_le].
    unfold ymd2ord, days_before_month, days_in_month.
    rewrite days_before_year_split by lia. lia.
Qed.

Lemma toordinal_bounds dt :
  valid_datetime dt -> 1 <= toordinal dt <= days_before_year (year dt) + 366.
Proof.
  intros (Hy & Hm & Hd & _). unfold toordinal, ymd2ord, days_before_month.
  unfold days_in_month in Hd.
  assert (Hy0 : 0 <= days_before_year (year dt)).
  { unfold days_before_year. cbv zeta. Z.to_euclidean_division_equations. lia. }
  assert (Hcase : month dt = 1 \/ month dt = 2 \/ month dt = 3 \/ month dt = 4
                  \/ month dt = 5 \/ month dt = 6 \/ month dt = 7
                  \/ month dt = 8 \/ month dt = 9 \/ month dt = 10
                  \/ month dt = 11 \/ month dt = 12) by lia.
  destruct (is_leap (year dt));
    repeat (destruct Hcase as [Hc|Hcase]; [rewrite Hc in *; simpl in *; lia|]);
    rewrite Hcase in *; simpl in *; lia.
Qed.

Lemma time_of_day_kept o h mi s us total :
  total = ((o * 24 + h) * 60 + mi) * 60 * 1000000 + s * 1000000 + us
          + 3600000000 ->
  0 <= mi < 60 -> 0 <= s < 60 -> 0 <= us < 1000000 ->
  total mod 86400000000 / 1000000 mod 3600 / 60 = mi
  /\ total mod 86400000000 / 1000000 mod 3600 mod 60 = s
  /\ total mod 86400000000 mod 1000000 = us.
Proof.
  intros Htot Hmi Hs Hus.
  assert (H1 : total mod 86400000000 mod 1000000 = us).
  { Z.to_euclidean_division_equations. lia. }
  assert (H2 : total mod 86400000000 / 1000000 mod 3600 = mi * 60 + s).
  { Z.to_euclidean_division_equations. lia. }
  rewrite H2. split; [|split; [|done]].
  - Z.to_euclidean_division_equations. lia.
  - Z.to_euclidean_division_equations. lia.
Qed.

(** [ensure_end]: what it returns and when. *)
Lemma ensure_end_spec (dt : datetime) :
  match ensure_end dt with
  | Some dt' =>
      dt_sub dt' dt = timedelta 0 1 0
      /\ 1 <= month dt' <= 12
      /\ 1 <= day dt' <= days_in_month (year dt') (month dt')
      /\ 0 <= hour dt' < 24 /\ 0 <= minute dt' < 60 /\ 0 <= second dt' < 60
      /\ 0 <= microsecond dt' < 1000000
      /\ (0 <= minute dt < 60 -> 0 <= second dt < 60 ->
          0 <= microsecond dt < 1000000 ->
          minute dt' = minute dt /\ second dt' = second dt
          /\ microsecond dt' = microsecond dt)
  | None =>
      to_micros dt + timedelta 0 1 0 < 86400000000
      \/ (MAXORDINAL + 1) * 86400000000 <= to_micros dt + timedelta 0 1 0
  end
  /\ (valid_datetime dt -> year dt <= 9998 -> is_Some (ensure_end dt)).
Proof.
  unfold ensure_end, datetime_add. cbv zeta.
  set (total := to_micros dt + timedelta 0 1 0).
  assert (Htot : total = to_micros dt + 3600000000) by reflexivity.
  split.
  - destruct ((0 <? total / 86400000000)
              && (total / 86400000000 <=? MAXORDINAL)) eqn:Hrange.
    + pose proof (ymd2ord_ord2ymd (total / 86400000000)) as Hord.
      destruct (ord2ymd (total / 86400000000)) as [[y m] d].
      destruct Hord as (Hord & Hm & Hd).
      unfold dt_sub, timedelta. unfold to_micros at 1, toordinal.
      cbn [year month day hour minute second microsecond].
      rewrite Hord. clear Hord Hrange.
      split; [|split; [done|split; [done|]]].
      * Z.to_euclidean_division_equations. lia.
      * do 4 (split; [Z.to_euclidean_division_equations; lia|]).
        intros Hmi Hs Hus. revert Htot. unfold to_micros.
        intros Htot. by apply (time_of_day_kept (toordinal dt) (hour dt)).
    + apply andb_false_iff in Hrange as [H%Z.ltb_ge|H%Z.leb_gt].
      * left. Z.to_euclidean_division_equations. lia.
      * right. unfold MAXORDINAL in *. Z.to_euclidean_division_equations. lia.
  - intros Hv Hy. pose proof (toordinal_bounds dt Hv) as Ho.
    destruct Hv as (Hy1 & _ & _ & Hh & Hmi & Hs & Hus).
    assert (Hdby : days_before_year (year dt) <= 3651404).
    { unfold days_before_year. cbv zeta.
      Z.to_euclidean_division_equations. lia. }
    assert (Hr : (0 <? total / 86400000000)
                 && (total / 86400000000 <=? MAXORDINAL) = true).
    { apply andb_true_iff. rewrite Z.ltb_lt, Z.leb_le. unfold MAXORDINAL.
      revert Htot. unfold to_micros. generalize (toordinal dt) Ho.
      intros o Ho' Htot. Z.to_euclidean_division_equations. lia. }
    rewrite Hr. by destruct (ord2ymd (total / 86400000000)) as [[y m] d].
Qed.

Lemma ensure_end_later dt dt' :
  ensure_end dt = Some dt' -> dt_sub dt' dt = timedelta 0 1 0.
Proof.
  intros H. pose proof (proj1 (ensure_end_spec dt)) as Hs.
  rewrite H in Hs. apply Hs.
Qed.

(** X14. The default end of an event is exactly one hour after its start:
    when [ensure_end] returns, the result is a well-formed date and time
    3600 seconds after the start, and for a start with well-formed time
    fields it has the same minute, second and microsecond.  It returns for
    every well-formed start before the year 9999; it raises only when the
    day one hour later is outside the years 1 to 9999. *)
Theorem X14_ensure_end_one_hour (dt : datetime) :
  match ensure_end dt with
  | Some dt' =>
      dt_sub dt' dt = timedelta 0 1 0
      /\ 1 <= month dt' <= 12
      /\ 1 <= day dt' <= days_in_month (year dt') (month dt')
      /\ 0 <= hour dt' < 24 /\ 0 <= minute dt' < 60 /\ 0 <= second dt' < 60
      /\ 0 <= microsecond dt' < 1000000
      /\ (0 <= minute dt < 60 -> 0 <= second dt < 60 ->
          0 <= microsecond dt < 1000000 ->
          minute dt' = minute dt /\ second dt' = second dt
          /\ microsecond dt' = microsecond dt)
  | None =>
      to_micros dt + timedelta 0 1 0 < 86400000000
      \/ (MAXORDINAL + 1) * 86400000000 <= to_micros dt + timedelta 0 1 0
  end
  /\ (valid_datetime dt -> year dt <= 9998 -> is_Some (ensure_end dt)).
Proof. exact (ensure_end_spec dt). Qed.

Lemma X14_ensure_end_one_hour_witness :
  ensure_end Scenario3.new_year_eve = Some (mk_datetime 2025 1 1 0 30 15 7)
  /\ dt_sub (mk_datetime 2025 1 1 0 30 15 7) Scenario3.new_year_eve
     = timedelta 0 1 0
  /\ is_Some (ensure_end Scenario3.new_year_eve).
Proof.
  pose proof (X14_ensure_end_one_hour Scenario3.new_year_eve) as [H1 H2].
  change (ensure_end Scenario3.new_year_eve)
    with (Some (mk_datetime 2025 1 1 0 30 15 7)) in H1 |- *.
  split; [reflexivity|]. split; [exact (proj1 H1)|].
  change (Some (mk_datetime 2025 1 1 0 30 15 7))
    with (ensure_end Scenario3.new_year_eve).
  apply H2.
  - unfold valid_datetime. vm_compute. intuition discriminate.
  - vm_compute. discriminate.
Defined.

(** ** Administrators *)

Lemma admins_set_user_ids u f st : admins (set_user_ids u f st) = admins st.
Proof. reflexivity. Qed.

Lemma step_admins e i st : admins (step e i st).1 = admins st.
Proof.
  destruct i; simpl.
  - unfold notify_schedules. case_bool_decide; [done|].
    destruct (_sorted_upcoming_items e); [|done].
    apply notify_items_recipients.
  - unfold start. simpl. by case_bool_decide.
  - unfold notice. destruct (negb (is_admin st chat)); [done|].
    destruct (_ || _); [done|]. case_bool_decide; [done|].
    by rewrite notice_loop_spec.
  - unfold delall_confirm_prompt, confirm_prompt. by repeat case_match.
  - unfold delhistory_confirm_prompt, confirm_prompt. by repeat case_match.
  - pose proof (ok_handler_state e now chat st) as H.
    destruct (ok_handler e now chat st) as [[c st'] o]. simpl in *. by subst.
  - unfold mute_schedule. by rewrite mute_command_state.
  - unfold unmute_schedule. by rewrite mute_command_state.
  - unfold confirm_timeout. by repeat case_match.
Qed.

Lemma guarded_admin_only chat b r :
  (guarded r.1 /\ forall a, a ∈ admins (core r.1) -> a ∈ admins (core b)) ->
  guarded b ->
  guarded (admin_only chat b r).1
  /\ forall a, a ∈ admins (core (admin_only chat b r).1) -> a ∈ admins (core b).
Proof. unfold admin_only. by destruct (is_admin _ _). Qed.

(** Without the password no step adds an administrator, or brings a user
    to the point of giving a name. *)
Lemma step2_guarded pw e i b :
  guarded b -> ~ types_password pw (e, i) ->
  guarded (step2 pw e i b).1
  /\ forall a, a ∈ admins (core (step2 pw e i b).1) -> a ∈ admins (core b).
Proof.
  intros Hg Hpw. destruct i; simpl in *.
  - pose proof (step_admins e0 i (core b)) as Ha.
    destruct (step e0 i (core b)) as [st o]. simpl in *.
    split; [done|]. by rewrite Ha.
  - unfold admin_command.
    destruct (in_group (u_type u)); [done|].
    destruct (is_admin (core b) (u_chat u)); [done|].
    split; [|done]. intros u'. simpl.
    destruct (decide (u_user u = u')) as [<-|Hne].
    + by rewrite lookup_insert_eq.
    + rewrite lookup_insert_ne by done. apply Hg.
  - unfold adminroom_command. unfold types_password in Hpw. simpl in Hpw.
    destruct (negb (in_group (u_type u))); [done|].
    destruct args as [|password [|a rest]]; [done|done|].
    by rewrite bool_decide_eq_false_2.
  - unfold handle_user_input, fallback_handler.
    unfold types_password in Hpw. simpl in Hpw.
    destruct (user_data b !! u_user u) as [[|]|] eqn:Hu.
    + rewrite bool_decide_eq_false_2 by done.
      split; [|done]. intros u'. simpl.
      destruct (decide (u_user u = u')) as [<-|Hne].
      * by rewrite lookup_delete_eq.
      * rewrite lookup_delete_ne by done. apply Hg.
    + by destruct (Hg (u_user u)).
    + by destruct (u_type u).
  - apply guarded_admin_only; [|done].
    by destruct (admins (core b)) eqn:Hadm; simpl; rewrite ?Hadm.
  - apply guarded_admin_only; [|done].
    destruct (admins (core b)) as [|a0 l] eqn:Hadm;
      [by simpl; rewrite ?Hadm|].
    destruct (head args ≫= int e) as [n|]; [|by simpl; rewrite ?Hadm].
    cbv zeta.
    destruct ((0 <=? n - 1) && (n - 1 <? Z.of_nat (length (a0 :: l))));
      [|by simpl; rewrite ?Hadm].
    destruct ((a0 :: l) !! Z.to_nat (n - 1)); [|by simpl; rewrite ?Hadm].
    split; [done|]. cbn [fst core admins set_admins].
    intros a' Ha'. eapply elem_of_sublist; [exact Ha'|apply sublist_delete].
  - apply guarded_admin_only; [|done]. unfold admin_notice.
    destruct (_ || _); [done|].
    by destruct (admins (core b)) eqn:Hadm; simpl; rewrite ?Hadm.
  - by apply guarded_admin_only.
  - apply guarded_admin_only; [|done].
    cbv zeta. by repeat case_match.
  - apply guarded_admin_only; [|done].
    cbv zeta. by repeat case_match.
  - unfold list_schedules. by repeat case_match.
  - apply guarded_admin_only; [|done].
    cbv zeta. by repeat case_match.
Qed.

(** X15. The password gate.  From a state in which no user is at the point
    of giving a name, whatever happens to the bot, as long as nobody types
    the administrators' password (as a text or as the first argument of
    [/adminroom]), no administrator is added: every administrator afterwards
    was one before, and still no user is at the point of giving a name. *)
Theorem X15_no_admin_without_password (pw : pystr)
    (ins : list (env2 * input2)) (b : bot) :
  guarded b ->
  Forall (fun x => ~ types_password pw x) ins ->
  (forall a, a ∈ admins (core (run2 pw ins b).1) -> a ∈ admins (core b))
  /\ guarded (run2 pw ins b).1.
Proof.
  revert b. induction ins as [|[e i] ins IH]; intros b Hg Hall; simpl;
    [done|].
  apply Forall_cons in Hall as [Hi Hall].
  destruct (step2_guarded pw e i b Hg Hi) as [Hg1 Ha1].
  destruct (step2 pw e i b) as [b1 o1].
  destruct (IH b1 Hg1 Hall) as [Ha2 Hg2].
  destruct (run2 pw ins b1) as [b2 o2]. simpl in *.
  split; [|done]. intros a Ha. by apply Ha1, Ha2.
Qed.

Lemma X15_no_admin_without_password_witness :
  admins (core (run2 (lit "secret") Scenario3.intruder Scenario3.bot0).1)
    = [Scenario.boss]
  /\ guarded (run2 (lit "secret") Scenario3.intruder Scenario3.bot0).1.
Proof.
  split; [reflexivity|].
  apply (X15_no_admin_without_password (lit "secret") Scenario3.intruder
           Scenario3.bot0).
  - intros u. unfold Scenario3.bot0. simpl. by rewrite lookup_empty.
  - repeat constructor; unfold types_password; simpl; try tauto;
      vm_compute; discriminate.
Defined.

Lemma is_admin_app st l chat :
  existsb (fun a => chat_id a =? chat) (admins st ++ l)
  = is_admin st chat || existsb (fun a => chat_id a =? chat) l.
Proof. unfold is_admin. apply existsb_app. Qed.

Lemma handle_user_input_password pw u text b :
  user_data b !! u_user u = Some awaiting_password ->
  handle_user_input pw u text b
  = if bool_decide (py_strip text = pw)
    then ({| core := core b;
             user_data := <[u_user u := awaiting_name]> (user_data b) |},
          [Answer (u_chat u) AskName])
    else ({| core := core b; user_data := delete (u_user u) (user_data b) |},
          [Answer (u_chat u) WrongPassword]).
Proof. intros H. unfold handle_user_input. by rewrite H. Qed.

Lemma handle_user_input_name pw u text b :
  user_data b !! u_user u = Some awaiting_name ->
  handle_user_input pw u text b
  = ({| core :=
          set_admins
            (admins (core b)
             ++ [{| name := py_strip text; chat_id := u_chat u |}]) (core b);
        user_data := delete (u_user u) (user_data b) |},
     [Answer (u_chat u) (Registered (py_strip text))]).
Proof. intros H. unfold handle_user_input. by rewrite H. Qed.

Lemma handle_user_input_idle pw u text b :
  user_data b !! u_user u = None ->
  handle_user_input pw u text b = fallback_handler u b.
Proof. intros H. unfold handle_user_input. by rewrite H. Qed.

Lemma delete_insert_same (k : Z) (x : admin_state) (m : gmap Z admin_state) :
  delete k (<[k := x]> m) = delete k m.
Proof.
  apply map_eq. intros j. destruct (decide (k = j)) as [<-|Hne].
  - by rewrite !lookup_delete_eq.
  - by rewrite !lookup_delete_ne, lookup_insert_ne.
Qed.

(** X16. The registration dialogue.  After [/admin] from a chat that is no
    group and no administrator's, the next two texts of the same user decide:
    if the first one is the password (padding aside), the second one is
    taken as a name and its chat, whichever chat that is, becomes an
    administrator's, added at the end of the list, everything else of the
    state kept, and the dialogue of the user is over; if the first one is not
    the password, the dialogue is over at once, nothing changes, and the
    second text is handled like any other text. *)
Theorem X16_registration_dialogue (pw : pystr) (u1 u2 u3 : update)
    (text2 text3 : pystr) (b : bot) :
  u_user u2 = u_user u1 -> u_user u3 = u_user u1 ->
  in_group (u_type u1) = false ->
  is_admin (core b) (u_chat u1) = false ->
  let b1 := (admin_command u1 b).1 in
  let b2 := (handle_user_input pw u2 text2 b1).1 in
  let r3 := handle_user_input pw u3 text3 b2 in
  (py_strip text2 = pw ->
     core r3.1
       = set_admins
           (admins (core b)
            ++ [{| name := py_strip text3; chat_id := u_chat u3 |}]) (core b)
     /\ is_admin (core r3.1) (u_chat u3) = true
     /\ user_data r3.1 = delete (u_user u1) (user_data b)
     /\ r3.2 = [Answer (u_chat u3) (Registered (py_strip text3))])
  /\ (py_strip text2 <> pw ->
     core b2 = core b
     /\ user_data b2 = delete (u_user u1) (user_data b)
     /\ r3 = fallback_handler u3 b2).
Proof.
  intros H2 H3 Hgrp Hadm b1 b2 r3. subst b1 b2 r3.
  unfold admin_command. rewrite Hgrp, Hadm. cbn [fst].
  rewrite (handle_user_input_password pw u2 text2)
    by (cbn [user_data]; rewrite H2; apply lookup_insert_eq).
  cbn [core user_data]. rewrite H2. split; intros Hpw.
  - rewrite bool_decide_eq_true_2 by done. cbn [fst].
    rewrite handle_user_input_name
      by (cbn [user_data]; rewrite H3; apply lookup_insert_eq).
    cbn [fst snd core user_data]. rewrite H3, !delete_insert_same.
    split; [done|]. split; [|done].
    unfold is_admin at 1. cbn [admins set_admins].
    rewrite is_admin_app. cbn [existsb chat_id].
    rewrite Z.eqb_refl. by rewrite orb_true_r.
  - rewrite bool_decide_eq_false_2 by done. cbn [fst core user_data].
    rewrite delete_insert_same. split; [done|]. split; [done|].
    apply handle_user_input_idle. cbn [user_data].
    rewrite H3. apply lookup_delete_eq.
Qed.

Lemma X16_registration_dialogue_witness :
  let b1 := (admin_command Scenario3.mallory Scenario3.bot0).1 in
  let b2 :=
    (handle_user_input (lit "secret") Scenario3.mallory (lit " secret ") b1).1 in
  admins
    (core (handle_user_input (lit "secret") Scenario3.mallory
             (lit "Mallory") b2).1)
  = [Scenario.boss; {| name := lit "Mallory"; chat_id := 9 |}].
Proof.
  intros b1 b2.
  pose proof (proj1 (X16_registration_dialogue (lit "secret")
    Scenario3.mallory Scenario3.mallory Scenario3.mallory
    (lit " secret ") (lit "Mallory") Scenario3.bot0
    eq_refl eq_refl eq_refl eq_refl) eq_refl) as [H _].
  subst b1 b2. rewrite H. reflexivity.
Defined.

Lemma is_admin_nonempty st chat : is_admin st chat = true -> admins st <> [].
Proof. unfold is_admin. by destruct (admins st). Qed.

Lemma admin_delete_command_admin e u args b n :
  is_admin (core b) (u_chat u) = true ->
  head args ≫= int e = Some n ->
  admin_delete_command e u args b
  = if (0 <=? n - 1) && (n - 1 <? Z.of_nat (length (admins (core b)))) then
      match admins (core b) !! Z.to_nat (n - 1) with
      | Some deleted =>
          ({| core :=
                set_admins (delete (Z.to_nat (n - 1)) (admins (core b)))
                  (core b);
              user_data := user_data b |},
           [Answer (u_chat u) (AdminDeleted (name deleted))])
      | None => (b, [Answer (u_chat u) AdminDelUsage])
      end
    else (b, [Answer (u_chat u) InvalidNumber]).
Proof.
  intros Hadm Hn. unfold admin_delete_command, admin_only.
  rewrite Hadm, Hn. apply is_admin_nonempty in Hadm.
  by destruct (admins (core b)).
Qed.

(** X17. [/admindel n] uses the numbers of [/adminlist].  From an
    administrator's chat and for a number [n] that [int] reads: with
    [1 <= n <= len(admins)] the entry removed is the one [/adminlist] shows
    as number [n], the reply names it, the entries before and after it stay
    in their order, nothing else of the state changes, and every chat other
    than the removed entry's is an administrator's exactly if it was; the
    command protects neither the caller nor the last entry, so removing the
    only entry leaves no administrator at all.  With any other number
    nothing changes. *)
Theorem X17_admindel_numbering (e : env2) (u : update) (args : list pystr)
    (b : bot) (n : Z) :
  is_admin (core b) (u_chat u) = true ->
  head args ≫= int e = Some n ->
  let r := admin_delete_command e u args b in
  let l := admins (core b) in
  (1 <= n <= Z.of_nat (length l) ->
     exists deleted names,
       (admin_list_command u b).2 = [Answer (u_chat u) (AdminList names)]
       /\ names !! Z.to_nat (n - 1) = Some (name deleted)
       /\ l !! Z.to_nat (n - 1) = Some deleted
       /\ r.2 = [Answer (u_chat u) (AdminDeleted (name deleted))]
       /\ core r.1
          = set_admins (take (Z.to_nat (n - 1)) l ++ drop (Z.to_nat n) l)
              (core b)
       /\ user_data r.1 = user_data b
       /\ (forall c, c <> chat_id deleted ->
             is_admin (core r.1) c = is_admin (core b) c)
       /\ (length l = 1%nat -> forall c, is_admin (core r.1) c = false))
  /\ (~ 1 <= n <= Z.of_nat (length l) ->
      r = (b, [Answer (u_chat u) InvalidNumber])).
Proof.
  intros Hadm Hn r l. subst r.
  rewrite (admin_delete_command_admin e u args b n Hadm Hn). fold l.
  split; intros Hr.
  - assert (Hb : (0 <=? n - 1) && (n - 1 <? Z.of_nat (length l)) = true).
    { apply andb_true_iff. rewrite Z.leb_le, Z.ltb_lt. lia. }
    rewrite Hb.
    destruct (lookup_lt_is_Some_2 l (Z.to_nat (n - 1))) as [deleted Hd];
      [lia|].
    rewrite Hd. cbn [fst snd core user_data].
    exists deleted, (name <$> l).
    assert (HS : Z.to_nat n = S (Z.to_nat (n - 1))) by lia.
    assert (Hdel : delete (Z.to_nat (n - 1)) l
                   = take (Z.to_nat (n - 1)) l ++ drop (Z.to_nat n) l).
    { rewrite HS. apply delete_take_drop. }
    assert (Hl : l = take (Z.to_nat (n - 1)) l
                     ++ deleted :: drop (Z.to_nat n) l).
    { rewrite HS. symmetry. by apply take_drop_middle. }
    split; [|split; [|split; [done|split; [done|split;
      [by rewrite Hdel|split; [done|split]]]]]].
    + unfold admin_list_command, admin_only. rewrite Hadm. fold l.
      apply is_admin_nonempty in Hadm. fold l in Hadm. by destruct l.
    + by rewrite list_lookup_fmap, Hd.
    + intros c Hc. unfold is_admin. cbn [admins set_admins]. fold l.
      rewrite Hdel. rewrite Hl at 3. rewrite !existsb_app.
      cbn [existsb]. f_equal.
      assert (Hne : (chat_id deleted =? c) = false) by (apply Z.eqb_neq; done).
      by rewrite Hne.
    + intros Hlen c. unfold is_admin. cbn [admins set_admins]. rewrite Hdel.
      destruct l as [|a [|a' l']]; try done.
      assert (n = 1) as -> by (cbn [length] in Hr; lia). done.
  - assert (Hb : (0 <=? n - 1) && (n - 1 <? Z.of_nat (length l)) = false).
    { apply andb_false_iff. rewrite Z.leb_gt, Z.ltb_ge. lia. }
    by rewrite Hb.
Qed.

Lemma X17_admindel_numbering_witness :
  admins (core (admin_delete_command Scenario3.env3 Scenario3.boss_chat
                  [lit "1"] Scenario3.bot0).1) = []
  /\ admin_delete_command Scenario3.env3 Scenario3.boss_chat [lit "2"]
       Scenario3.bot0
     = (Scenario3.bot0, [Answer 7 InvalidNumber]).
Proof.
  split.
  - destruct (proj1 (X17_admindel_numbering Scenario3.env3
      Scenario3.boss_chat [lit "1"] Scenario3.bot0 1 eq_refl eq_refl))
      as (d & ns & _ & _ & _ & _ & Hc & _); [vm_compute; split; discriminate|].
    rewrite Hc. reflexivity.
  - apply (proj2 (X17_admindel_numbering Scenario3.env3
      Scenario3.boss_chat [lit "2"] Scenario3.bot0 2 eq_refl eq_refl)).
    vm_compute. intros [_ H]. by apply H.
Defined.

(** X18. The replies for an empty list of administrators are never sent:
    a handler under [@admin_only] runs only when the list has an entry for
    the chat, so [/adminlist] and [/adminnoti] never answer that there is no
    administrator, and [/admindel] never answers that there is nobody to
    delete (the list being changed by the bot alone). *)
Theorem X18_empty_list_replies_are_dead (e : env2) (u : update)
    (args : list pystr) (text : pystr) (b : bot) (c : Z) :
  (Answer c NoAdmins ∉ (admin_list_command u b).2)
  /\ (Answer c NoAdmins ∉ (admin_notice e u text b).2)
  /\ (Answer c NothingToDelete ∉ (admin_delete_command e u args b).2).
Proof.
  unfold admin_list_command, admin_notice, admin_delete_command, admin_only.
  destruct (is_admin (core b) (u_chat u)) eqn:Hadm.
  - apply is_admin_nonempty in Hadm.
    destruct (admins (core b)) as [|a l] eqn:Hl; [done|].
    split; [|split].
    + cbn [snd]. rewrite list_elem_of_singleton. discriminate.
    + destruct (_ || _); cbn [snd].
      * rewrite list_elem_of_singleton. discriminate.
      * rewrite elem_of_app, list_elem_of_fmap, list_elem_of_singleton.
        intros [(a' & H & _)|H]; [discriminate|].
        by destruct (List.filter _ _).
    + destruct (head args ≫= int e) as [n|]; cbv zeta;
        repeat case_match; cbn [snd]; rewrite list_elem_of_singleton;
        discriminate.
  - cbn [snd]. rewrite !list_elem_of_singleton. by repeat split.
Qed.

Lemma length_filter_raises {A} (f : A -> bool) (l : list A) :
  (length (List.filter f l) <= length l)%nat
  /\ (List.filter f l = [] <-> Forall (fun a => f a = false) l).
Proof.
  induction l as [|a l [IH1 IH2]]; [by split|]. cbn [List.filter].
  destruct (f a) eqn:Hf; cbn [length].
  - split; [lia|]. split; [done|]. intros H. inversion H. congruence.
  - split; [lia|]. rewrite IH2. split.
    + by constructor.
    + by inversion 1.
Qed.

(** X19. [/adminnoti] reaches every administrator and removes nobody.  The
    command never changes the state, so an administrator whose send fails
    stays one (a recipient of [/noti] would be dropped).  From an
    administrator's chat and with a text, every entry of the list is sent
    the text once, in the order of the list, whatever earlier sends did; the
    reply counts the failed and the successful sends, which add up to the
    length of the list, and it is the all-clear exactly when no send
    raised. *)
Theorem X19_admin_notice_attempts (e : env2) (u : update) (text : pystr)
    (b : bot) :
  let r := admin_notice e u text b in
  let msg := py_strip (py_slice_from 10 text) in
  r.1 = b
  /\ (is_admin (core b) (u_chat u) = true ->
      py_strip text <> [] -> py_strip text <> lit "/adminnoti" ->
      exists a : answer,
        r.2 = ((fun a => AdminSend (chat_id a) msg
                           (send_admin_notice e (chat_id a) msg))
                 <$> admins (core b))
              ++ [Answer (u_chat u) a]
        /\ ((exists success,
               a = AdminNoticeAll success
               /\ success = Z.of_nat (length (admins (core b)))
               /\ Forall (fun a => raises (send_admin_notice e (chat_id a) msg)
                                   = false) (admins (core b)))
            \/ (exists failed success,
                  a = AdminNoticePartial failed success
                  /\ 0 < failed /\ 0 <= success
                  /\ failed + success = Z.of_nat (length (admins (core b)))
                  /\ Exists (fun a => raises (send_admin_notice e (chat_id a)
                                                msg) = true)
                       (admins (core b))))).
Proof.
  intros r msg. subst r. unfold admin_notice, admin_only. split.
  - destruct (is_admin _ _); [|done]. destruct (_ || _); [done|].
    by destruct (admins (core b)).
  - intros Hadm H1 H2. rewrite Hadm.
    rewrite !bool_decide_eq_false_2 by done. cbn [orb].
    apply is_admin_nonempty in Hadm. fold msg.
    destruct (admins (core b)) as [|a0 l] eqn:Hl; [done|]. cbv zeta.
    cbn [snd]. eexists. split; [reflexivity|].
    destruct (length_filter_raises
                (fun a => raises (send_admin_notice e (chat_id a) msg))
                (a0 :: l)) as [Hlen Hnil].
    destruct (List.filter _ (a0 :: l)) as [|f fs] eqn:Hf.
    + left. eexists. split; [reflexivity|]. split.
      * cbn [length]. lia.
      * by apply Hnil.
    + right. do 2 eexists. split; [reflexivity|].
      split; [cbn [length]; lia|]. split; [lia|]. split; [lia|].
      apply Exists_exists. exists f.
      assert (Hin : In f (List.filter
                (fun a => raises (send_admin_notice e (chat_id a) msg))
                (a0 :: l))) by (rewrite Hf; left; done).
      apply List.filter_In in Hin as [Hin Hr].
      split; [by apply list_elem_of_In|done].
Qed.

Lemma X19_admin_notice_attempts_witness :
  (admin_notice Scenario3.env3 Scenario3.boss_chat (lit "/adminnoti  hello ")
     Scenario3.bot0).2
  = [AdminSend 7 (lit "hello") Delivered; Answer 7 (AdminNoticeAll 1)].
Proof.
  destruct (proj2 (X19_admin_notice_attempts Scenario3.env3
    Scenario3.boss_chat (lit "/adminnoti  hello ") Scenario3.bot0))
    as (a & Ha & _).
  - reflexivity.
  - vm_compute. discriminate.
  - vm_compute. discriminate.
  - reflexivity.
Defined.

(** ** Schedules *)

Lemma is_muted_mute_property ev mute :
  ev_extendedProperties ev = Some (mute_property mute) -> is_muted ev = mute.
Proof.
  intros H. unfold is_muted, private_of. rewrite H.
  destruct mute; vm_compute; reflexivity.
Qed.

Lemma private_of_mute_property_patched b ev mute k :
  b_extendedProperties b = Some (mute_property mute) ->
  private_of (apply_patch b ev) !! k
  = if decide (k = lit "mute") then Some (if mute then lit "v" else [])
    else private_of ev !! k.
Proof.
  intros H.
  assert (private_of (apply_patch b ev)
          = {[lit "mute" := if mute then lit "v" else []]} ∪ private_of ev)
    as ->.
  { unfold private_of, apply_patch. cbn [ev_extendedProperties].
    rewrite H. reflexivity. }
  rewrite lookup_union. case_decide as Hk.
  - subst k. rewrite lookup_singleton_eq.
    by destruct (private_of ev !! _).
  - rewrite lookup_singleton_ne by done.
    by destruct (private_of ev !! k).
Qed.

Lemma is_muted_mute_property_patched b ev mute :
  b_extendedProperties b = Some (mute_property mute) ->
  is_muted (apply_patch b ev) = mute.
Proof.
  intros H. unfold is_muted. cbv zeta.
  rewrite (private_of_mute_property_patched b ev mute _ H), decide_True by done.
  by destruct mute.
Qed.

Lemma create_event_body_spec dt summary mute body :
  create_event_body dt summary mute = Some body ->
  exists dt_end,
    body = {| b_summary := Some summary; b_start := Some (DateTime dt);
              b_end := Some (DateTime dt_end);
              b_extendedProperties := Some (mute_property mute) |}
    /\ dt_sub dt_end dt = timedelta 0 1 0.
Proof.
  unfold create_event_body. destruct (ensure_end dt) as [dt_end|] eqn:He;
    [|done].
  intros [= <-]. exists dt_end. split; [done|]. by apply ensure_end_later.
Qed.

Lemma patch_event_body_spec dt summary mute body :
  patch_event_body (Some dt) (Some summary) (Some mute) = Some body ->
  exists dt_end,
    body = {| b_summary := Some summary; b_start := Some (DateTime dt);
              b_end := Some (DateTime dt_end);
              b_extendedProperties := Some (mute_property mute) |}
    /\ dt_sub dt_end dt = timedelta 0 1 0.
Proof.
  unfold patch_event_body. destruct (ensure_end dt) as [dt_end|] eqn:He;
    [|done].
  intros [= <-]. exists dt_end. split; [done|]. by apply ensure_end_later.
Qed.

(** X20. [/add] never creates an event in the past.  The command never
    changes the state of the bot.  When it sends the calendar an insert, the
    chat is an administrator's, the insert is the only one of the command,
    the new event starts at the parsed moment, which is not before the
    clock reading of the check, it ends exactly one hour after its start,
    it carries the joined and stripped rest of the arguments as its summary,
    and it is created unmuted; and the reply reports the new event only when
    the insert returned. *)
Theorem X20_add_schedule_never_in_the_past (e : env2) (u : update)
    (args : list pystr) (now now' : datetime) (b : bot) :
  let r := add_schedule e u args now now' b in
  r.1 = b
  /\ (forall body ok, EventsInsert body ok ∈ r.2 ->
        is_admin (core b) (u_chat u) = true
        /\ (exists s_date s_time dt dt_end,
              args !! 0%nat = Some s_date /\ args !! 1%nat = Some s_time
              /\ parse_yyMMdd_HHmm e s_date s_time = Some dt
              /\ b_start body = Some (DateTime dt)
              /\ b_end body = Some (DateTime dt_end)
              /\ to_micros now <= to_micros dt
              /\ dt_sub dt_end dt = timedelta 0 1 0
              /\ b_summary body
                 = Some (py_strip (py_join (lit " ") (drop 2 args)))
              /\ r.2 = [EventsInsert body ok;
                        Answer (u_chat u)
                          (if ok
                           then Added (py_strip (py_join (lit " ")
                                                   (drop 2 args))) dt now'
                           else AddError)])
        /\ ok = events_insert e body
        /\ (forall ev, ev_extendedProperties ev = b_extendedProperties body ->
              is_muted ev = false))
  /\ (forall c summary dt n, Answer c (Added summary dt n) ∈ r.2 ->
        exists body, EventsInsert body true ∈ r.2).
Proof.
  intros r. subst r. unfold add_schedule, admin_only.
  destruct (is_admin (core b) (u_chat u)) eqn:Hadm.
  2:{ cbn [fst snd]. split; [done|]. split.
      - intros body ok H%list_elem_of_singleton. discriminate.
      - intros c s dt n H%list_elem_of_singleton. discriminate. }
  destruct args as [|s_date [|s_time [|a rest]]];
    try (cbn [fst snd]; split; [done|]; split;
         [intros body ok H%list_elem_of_singleton; discriminate
         |intros c s dt n H%list_elem_of_singleton; discriminate]).
  destruct (parse_yyMMdd_HHmm e s_date s_time) as [dt|] eqn:Hp.
  2:{ cbn [fst snd]. split; [done|]. split.
      - intros body ok H%list_elem_of_singleton. discriminate.
      - intros c s dt n H%list_elem_of_singleton. discriminate. }
  cbv zeta. destruct (dt_ltb dt now) eqn:Hlt.
  { cbn [fst snd]. split; [done|]. split.
    - intros body ok H%list_elem_of_singleton. discriminate.
    - intros c s dt0 n H%list_elem_of_singleton. discriminate. }
  destruct (create_event_body dt _ false) as [body|] eqn:Hb.
  2:{ cbn [fst snd]. split; [done|]. split.
      - intros body ok H%list_elem_of_singleton. discriminate.
      - intros c s dt0 n H%list_elem_of_singleton. discriminate. }
  cbn [fst snd]. split; [done|].
  apply create_event_body_spec in Hb as (dt_end & -> & Hend).
  split.
  - intros body ok [H|H%list_elem_of_singleton]%elem_of_cons; [|discriminate].
    injection H as -> ->. split; [done|]. split; [|split].
    + exists s_date, s_time, dt, dt_end.
      apply Z.ltb_ge in Hlt. by repeat split.
    + done.
    + intros ev Hev. by apply is_muted_mute_property.
  - intros c s dt0 n [H|H%list_elem_of_singleton]%elem_of_cons;
      [discriminate|].
    destruct (events_insert e _) eqn:Hok; [|discriminate].
    eexists. apply elem_of_cons. left. reflexivity.
Qed.

Lemma X20_add_schedule_never_in_the_past_witness :
  let r :=
    add_schedule Scenario3.env3 Scenario3.boss_chat
      [lit "241231"; lit "2330"; lit "new"; lit "year"]
      Scenario.now0 Scenario.now0 Scenario3.bot0 in
  exists body,
    r.2 !! 0%nat = Some (EventsInsert body true)
    /\ b_end body = Some (DateTime (mk_datetime 2025 1 1 0 30 0 0))
    /\ b_summary body = Some (lit "new year").
Proof.
  intros r. eexists. split; [reflexivity|].
  destruct (proj1 (proj2 (X20_add_schedule_never_in_the_past Scenario3.env3
    Scenario3.boss_chat [lit "241231"; lit "2330"; lit "new"; lit "year"]
    Scenario.now0 Scenario.now0 Scenario3.bot0)) _ true
    (list_elem_of_here _ _)) as (_ & (sd & st & dt & de & _ & _ & _ & _ & _ & _ & _ & Hs & _) & _).
  split; [reflexivity|exact Hs].
Defined.

(** X21. [/edit n] moves entry [n] of the listing and keeps its mute flag.
    The command never changes the state of the bot.  When it sends the
    calendar a patch, the chat is an administrator's, the patch is the only
    one of the command and goes to entry [n] of the sorted listing, with
    [1 <= n <= len(items)]; the new start is the parsed moment, not before
    the clock reading of the check, the new end one hour later; and the
    event is muted afterwards exactly if its entry was, every private
    property other than [mute] being kept (the calendar merging what the
    body provides).  The reply reports the change only when the patch
    returned. *)
Theorem X21_edit_schedule_keeps_mute (e : env2) (u : update)
    (args : list pystr) (now now' : datetime) (b : bot) :
  let r := edit_schedule e u args now now' b in
  r.1 = b
  /\ (forall event_id body ok, EventsPatch event_id body ok ∈ r.2 ->
        is_admin (core b) (u_chat u) = true
        /\ (exists n items target dt dt_end,
              head args ≫= int e = Some n
              /\ _sorted_upcoming_items (base e) = Some items
              /\ 1 <= n <= Z.of_nat (length items)
              /\ items !! Z.to_nat (n - 1) = Some target
              /\ event_id = it_id target
              /\ b_start body = Some (DateTime dt)
              /\ b_end body = Some (DateTime dt_end)
              /\ to_micros now <= to_micros dt
              /\ dt_sub dt_end dt = timedelta 0 1 0
              /\ (forall ev,
                    is_muted (apply_patch body ev) = it_mute target
                    /\ forall k, k <> lit "mute" ->
                         private_of (apply_patch body ev) !! k
                         = private_of ev !! k)
              /\ exists a, r.2 = [EventsPatch event_id body ok;
                                  Answer (u_chat u) a])
        /\ ok = events_patch (base e) event_id body)
  /\ (forall c summary dt n, Answer c (Edited summary dt n) ∈ r.2 ->
        exists event_id body, EventsPatch event_id body true ∈ r.2).
Proof.
  intros r. subst r. unfold edit_schedule, admin_only.
  assert (Hone : forall (x : bot) (a : answer),
    (x, [Answer (u_chat u) a]).1 = x
    /\ (forall event_id body ok,
          EventsPatch event_id body ok ∈ (x, [Answer (u_chat u) a]).2 ->
          False)
    /\ ((forall s dt n, a <> Edited s dt n) ->
        forall c summary dt n,
          Answer c (Edited summary dt n) ∈ (x, [Answer (u_chat u) a]).2 ->
          False)).
  { intros x a. cbn [fst snd]. split; [done|]. split.
    - intros i bd ok H%list_elem_of_singleton. discriminate.
    - intros Ha c s dt n H%list_elem_of_singleton. injection H as _ H.
      by eapply Ha. }
  destruct (is_admin (core b) (u_chat u)) eqn:Hadm.
  2:{ destruct (Hone b Forbidden) as (H1 & H2 & H3).
      split; [done|]. split.
      - intros i bd ok H. by destruct (H2 i bd ok).
      - intros c s dt n H. by destruct (H3 ltac:(done) c s dt n). }
  destruct args as [|s_idx [|s_date [|s_time [|a rest]]]];
    try (destruct (Hone b EditUsage) as (H1 & H2 & H3);
         split; [done|]; split;
         [intros i bd ok H; by destruct (H2 i bd ok)
         |intros c s dt n H; by destruct (H3 ltac:(done) c s dt n)]).
  cbn [head mbind option_bind].
  destruct (int e s_idx) as [n|] eqn:Hn.
  2:{ destruct (Hone b EditError) as (H1 & H2 & H3).
      split; [done|]. split.
      - intros i bd ok H. by destruct (H2 i bd ok).
      - intros c s dt n H. by destruct (H3 ltac:(done) c s dt n). }
  cbv zeta.
  destruct (parse_yyMMdd_HHmm e s_date s_time) as [dt|] eqn:Hp.
  2:{ destruct (Hone b EditError) as (H1 & H2 & H3).
      split; [done|]. split.
      - intros i bd ok H. by destruct (H2 i bd ok).
      - intros c s dt n0 H. by destruct (H3 ltac:(done) c s dt n0). }
  destruct (_sorted_upcoming_items (base e)) as [items|] eqn:Hit.
  2:{ destruct (Hone b EditError) as (H1 & H2 & H3).
      split; [done|]. split.
      - intros i bd ok H. by destruct (H2 i bd ok).
      - intros c s dt0 n0 H. by destruct (H3 ltac:(done) c s dt0 n0). }
  destruct ((0 <=? n - 1) && (n - 1 <? Z.of_nat (length items))) eqn:Hb.
  2:{ destruct (Hone b EditBadIndex) as (H1 & H2 & H3).
      split; [done|]. split.
      - intros i bd ok H. by destruct (H2 i bd ok).
      - intros c s dt0 n0 H. by destruct (H3 ltac:(done) c s dt0 n0). }
  destruct (items !! Z.to_nat (n - 1)) as [target|] eqn:Ht.
  2:{ destruct (Hone b EditError) as (H1 & H2 & H3).
      split; [done|]. split.
      - intros i bd ok H. by destruct (H2 i bd ok).
      - intros c s dt0 n0 H. by destruct (H3 ltac:(done) c s dt0 n0). }
  destruct (dt_ltb dt now) eqn:Hlt.
  { destruct (Hone b PastEdit) as (H1 & H2 & H3).
    split; [done|]. split.
    - intros i bd ok H. by destruct (H2 i bd ok).
    - intros c s dt0 n0 H. by destruct (H3 ltac:(done) c s dt0 n0). }
  destruct (patch_event_body _ _ _) as [body|] eqn:Hbody.
  2:{ destruct (Hone b EditError) as (H1 & H2 & H3).
      split; [done|]. split.
      - intros i bd ok H. by destruct (H2 i bd ok).
      - intros c s dt0 n0 H. by destruct (H3 ltac:(done) c s dt0 n0). }
  cbn [fst snd]. split; [done|].
  apply patch_event_body_spec in Hbody as (dt_end & -> & Hend).
  apply andb_true_iff in Hb as [Hb1%Z.leb_le Hb2%Z.ltb_lt].
  apply Z.ltb_ge in Hlt.
  split.
  - intros i bd ok [H|H%list_elem_of_singleton]%elem_of_cons; [|discriminate].
    injection H as -> -> ->. split; [done|]. split; [|done].
    exists n, items, target, dt, dt_end.
    do 9 (split; [done || lia|]). split.
    + intros ev. split.
      * by apply is_muted_mute_property_patched.
      * intros k Hk.
        rewrite (private_of_mute_property_patched _ ev (it_mute target))
          by done.
        by rewrite decide_False.
    + by eexists.
  - intros c s dt0 n0 [H|H%list_elem_of_singleton]%elem_of_cons;
      [discriminate|].
    destruct (events_patch (base e) _ _) eqn:Hok; [|discriminate].
    do 2 eexists. apply elem_of_cons. left. reflexivity.
Qed.
